(** * aitextgen: generation post-processing and training configuration

    A shallow embedding of [aitextgen/aitextgen.py]: the schema-aware
    post-processing and the retry loop of [aitextgen.generate], the
    configuration derived by [aitextgen.train], and the decay schedule of
    [aitextgen.cross_train].

    Conventions.  Python [int] is [Z]; token sequences are [list Z];
    Python [str] is [string], read as ASCII text (so [len] is
    [String.length]); [float] is the primitive binary64 [float].  The
    tokenizer and the language model are external collaborators and enter
    as records of functions.  Python exceptions are the constructors of
    [exn]; a computation that may raise returns a [result]. *)

From Stdlib Require Import ZArith Ascii String PrimFloat.
From stdpp Require Import base list strings sorting gmap.

Local Open Scope string_scope.
Local Open Scope list_scope.
Local Open Scope Z_scope.

(* Decimal float literals stand for the nearest double, as in Python. *)
Set Warnings "-inexact-float".

(** ** Python values *)

Inductive exn : Set :=
| AssertionError
| AttributeError
| KeyError
| RuntimeError
| IndexError
| OverflowError.

Inductive result (A : Type) : Type :=
| Ok (a : A)
| Raise (e : exn).

Arguments Ok {A} a.
Arguments Raise {A} e.

Definition rbind {A B : Type} (r : result A) (k : A -> result B) : result B :=
  match r with
  | Ok a => k a
  | Raise e => Raise e
  end.

Notation "x <-- r ;; k" := (rbind r (fun x => k))
  (at level 100, r at next level, right associativity).

Fixpoint result_mapM {A B : Type} (f : A -> result B) (l : list A)
  : result (list B) :=
  match l with
  | [] => Ok []
  | x :: l' => y <-- f x ;; ys <-- result_mapM f l' ;; Ok (y :: ys)
  end.

(** Truth value of an optional integer argument ([if seed:],
    [if min_length:]): [None] and [0] are false. *)
Definition truthy_int (o : option Z) : bool :=
  match o with
  | Some z => negb (z =? 0)
  | None => false
  end.

(** Truth value of an optional list ([if schema_return:]): [None] and the
    empty list are false. *)
Definition truthy_list {A : Type} (o : option (list A)) : bool :=
  match o with
  | Some (_ :: _) => true
  | _ => false
  end.

(** Truth value of a string ([if prompt:]). *)
Definition truthy_str (s : string) : bool :=
  negb (String.eqb s "").

(** [key in lst] for a list of strings. *)
Fixpoint str_in (k : string) (l : list string) : bool :=
  match l with
  | [] => false
  | k' :: l' => String.eqb k k' || str_in k l'
  end.

(** An index of a slice, brought into [0, len]: a negative index counts
    from the end. *)
Definition clamp_index (len i : Z) : Z :=
  if i <? 0 then Z.max (i + len) 0 else Z.min i len.

(** [l[start:stop]], where [stop = None] is Python's [None] end. *)
Definition pyslice {A : Type} (l : list A) (start : Z) (stop : option Z)
  : list A :=
  let len := Z.of_nat (length l) in
  let lo := clamp_index len start in
  let hi := match stop with
            | None => len
            | Some e => clamp_index len e
            end in
  take (Z.to_nat (hi - lo)) (drop (Z.to_nat lo) l).

(** ** Python dictionaries

    A [dict] with string keys and values, as CPython lays it out: an
    array of entries in insertion order, where deleting an entry leaves
    an empty slot behind.  [used] is the number of live entries, which an
    iterator compares with the number it saw when it was created. *)
Module PyDict.

Abbreviation slot := (option (string * string)).
Abbreviation t := (list (option (string * string))).

Definition empty : t := [].

Fixpoint used (d : t) : nat :=
  match d with
  | [] => O
  | Some _ :: d' => S (used d')
  | None :: d' => used d'
  end.

(** [d[k]]; [None] stands for [KeyError]. *)
Fixpoint getitem (d : t) (k : string) : option string :=
  match d with
  | [] => None
  | Some (k', v) :: d' => if String.eqb k' k then Some v else getitem d' k
  | None :: d' => getitem d' k
  end.

(** [d[k] = v]: an existing key keeps its place. *)
Fixpoint setitem (d : t) (k v : string) : t :=
  match d with
  | [] => [Some (k, v)]
  | Some (k', v') :: d' =>
      if String.eqb k' k then Some (k, v) :: d'
      else Some (k', v') :: setitem d' k v
  | None :: d' => None :: setitem d' k v
  end.

(** [d.pop(k, None)]: never raises. *)
Fixpoint pop (d : t) (k : string) : t :=
  match d with
  | [] => []
  | Some (k', v') :: d' =>
      if String.eqb k' k then None :: d'
      else Some (k', v') :: pop d' k
  | None :: d' => None :: pop d' k
  end.

(** The live entries, in insertion order. *)
Fixpoint items (d : t) : list (string * string) :=
  match d with
  | [] => []
  | Some kv :: d' => kv :: items d'
  | None :: d' => items d'
  end.

Definition keys (d : t) : list string := map fst (items d).

End PyDict.

(** ** Collaborators *)

(** The global random state, as far as [generate] is concerned: which
    seed it derives from ([None]: fresh entropy) and how many sampling
    passes have drawn from it since. *)
Record rng_state : Set := {
  seeded_by : option Z;
  draws : nat
}.

(** Modelled from the spec: [utils.set_seed], which is not among the
    sources; it applies a fixed seed to the global random state. *)
Definition set_seed (s : Z) (_ : rng_state) : rng_state :=
  {| seeded_by := Some s; draws := O |}.

(** Modelled from the spec: [utils.reset_seed], which is not among the
    sources; it puts the global random state back to a fresh random one. *)
Definition reset_seed (_ : rng_state) : rng_state :=
  {| seeded_by := None; draws := O |}.

Definition draw (r : rng_state) : rng_state :=
  {| seeded_by := seeded_by r; draws := S (draws r) |}.

(** [self.tokenizer]. *)
Record tokenizer : Type := {
  encode : string -> list Z;
  (* decode(ids, skip_special_tokens) *)
  decode : list Z -> bool -> string;
  bos_token_id : Z;
  pad_token_id_attr : option Z;
  eos_token_id_attr : option Z
}.

(** [self.model.config]; an optional field is an attribute that may be
    missing.  Modelled from the spec: [max_context] is what
    [utils.model_max_length(config)] returns, the model's maximum context
    length. *)
Record model_config : Type := {
  max_context : Z;
  line_by_line : option bool;
  schema_tokens_attr : option (list string);
  schema_return_attr : option (list string)
}.

(** The arguments [generate] hands to [self.model.generate]. *)
Record sampling_request : Type := {
  input_ids : option (list Z);
  req_min_length : option Z;
  req_max_length : Z;
  num_return_sequences : Z;
  req_pad_token_id : option Z;
  req_use_cache : bool
}.

(** [self.model]: one sampling pass is a function of the request and of
    the random state. *)
Record model : Type := {
  config : model_config;
  model_generate : sampling_request -> rng_state -> list (list Z)
}.

(** ** utils.find_index_of_subset *)

Fixpoint starts_with (small large : list Z) : bool :=
  match small, large with
  | [], _ => true
  | _ :: _, [] => false
  | x :: small', y :: large' => (x =? y) && starts_with small' large'
  end.

Fixpoint find_from (large small : list Z) (idx : Z) : Z :=
  match large with
  | [] => -1
  | _ :: rest =>
      if starts_with small large then idx
      else find_from rest small (idx + 1)
  end.

(** Modelled from the spec: [utils.find_index_of_subset], which is not
    among the sources.  The starting index of the first occurrence of
    [small] as a contiguous subsequence of [large]; the not-found sentinel
    [-1] if there is none, and also for an empty [small]. *)
Definition find_index_of_subset (large small : list Z) : Z :=
  match small with
  | [] => -1
  | _ :: _ => find_from large small 0
  end.

(** ** generate: schema mode *)

(** A word character other than the underscore; bytes above 127 belong
    to letters of a UTF-8 text and are kept. *)
Definition is_alnum (c : ascii) : bool :=
  let n := nat_of_ascii c in
  ((48 <=? n) && (n <=? 57) || (65 <=? n) && (n <=? 90)
   || (97 <=? n) && (n <=? 122) || (128 <=? n))%nat.

(** [re.compile(r"[\W_]+", re.UNICODE).sub("", s)]. *)
Fixpoint nonalphanum_sub (s : string) : string :=
  match s with
  | EmptyString => EmptyString
  | String c s' =>
      if is_alnum c then String c (nonalphanum_sub s') else nonalphanum_sub s'
  end.

(** [list.sort(key=lambda x: x[1])] on (delimiter, position) pairs: the
    stable ascending sort, by insertion. *)
Fixpoint insert_by_pos (x : string * Z) (l : list (string * Z))
  : list (string * Z) :=
  match l with
  | [] => [x]
  | y :: l' => if x.2 <=? y.2 then x :: l else y :: insert_by_pos x l'
  end.

Definition sort_by_pos (l : list (string * Z)) : list (string * Z) :=
  foldr insert_by_pos [] l.

(** [self.tokenizer(text=schema_tokens)["input_ids"]]. *)
Definition schema_tokens_enc (tok : tokenizer) (schema_tokens : list string)
  : list (list Z) :=
  map (encode tok) schema_tokens.

(** The list comprehension of lines 377-380 followed by the sort of line
    382. *)
Definition schema_token_indices (tok : tokenizer) (schema_tokens : list string)
    (output : list Z) : list (string * Z) :=
  sort_by_pos
    (zip_with (fun delim token_enc =>
                 (delim, find_index_of_subset output token_enc))
       schema_tokens (schema_tokens_enc tok schema_tokens)).

Definition field_key (normalize_key : bool) (delim : string) : string :=
  if normalize_key then nonalphanum_sub delim else delim.

(** [schema_token_indices[i + 1][1] - 1 if i + 1 < len(...) else None]. *)
Definition end_index (sti : list (string * Z)) (i : nat) : option Z :=
  match sti !! S i with
  | Some next => Some (next.2 - 1)
  | None => None
  end.

(** The value the loop body stores for the [i]-th pair. *)
Definition field_text (tok : tokenizer) (output : list Z)
    (sti : list (string * Z)) (i : nat) (token_tuple : string * Z) : string :=
  let start_index := token_tuple.2 in
  if start_index =? -1 then ""
  else decode tok (pyslice output start_index (end_index sti i)) true.

(** The loop of lines 384-402, run on [gen_text_dict], from the [i]-th
    pair on. *)
Fixpoint fill_fields (tok : tokenizer) (normalize_key : bool) (output : list Z)
    (sti : list (string * Z)) (i : nat) (todo : list (string * Z))
    (gen_text_dict : PyDict.t) : PyDict.t :=
  match todo with
  | [] => gen_text_dict
  | token_tuple :: todo' =>
      fill_fields tok normalize_key output sti (S i) todo'
        (PyDict.setitem gen_text_dict
           (field_key normalize_key token_tuple.1)
           (field_text tok output sti i token_tuple))
  end.

(** [gen_text_dict] after the loop. *)
Definition schema_fields (tok : tokenizer) (normalize_key : bool)
    (schema_tokens : list string) (output : list Z) : PyDict.t :=
  let sti := schema_token_indices tok schema_tokens output in
  fill_fields tok normalize_key output sti O sti PyDict.empty.

(** What ends up in [gen_texts] for one output: the dictionary, or the
    string it was rebound to. *)
Inductive record : Type :=
| RDict (d : PyDict.t)
| RStr (s : string).

(** [for key in keys: if key not in schema_return:
    gen_text_dict.pop(key, None)], where [keys] is the live key view of
    the dictionary [d] built by the loop, and [rebound] tells whether
    the variable [gen_text_dict] still names [d] ([None]) or has been
    rebound to a string.  The iterator stands at slot [pos] with [todo]
    slots to go and remembers [di_used]; each request for the next key
    first checks that the dictionary still has that many entries. *)
Fixpoint prune_keys (todo pos di_used : nat) (schema_return : list string)
    (d : PyDict.t) (rebound : option string)
  : result (PyDict.t * option string) :=
  match todo with
  | O =>
      if (PyDict.used d =? di_used)%nat then Ok (d, rebound)
      else Raise RuntimeError
  | S todo' =>
      match d !! pos with
      | Some (Some (key, _)) =>
          if negb (PyDict.used d =? di_used)%nat then Raise RuntimeError
          else if negb (str_in key schema_return) then
            match rebound with
            | Some _ => Raise AttributeError
            | None =>
                prune_keys todo' (S pos) di_used schema_return
                  (PyDict.pop d key) None
            end
          else prune_keys todo' (S pos) di_used schema_return d rebound
      | _ => prune_keys todo' (S pos) di_used schema_return d rebound
      end
  end.

(** Lines 404-411: "remove fields not in schema_return". *)
Definition remove_fields (schema_return : option (list string))
    (gen_text_dict : PyDict.t) : result record :=
  match schema_return with
  | Some ((first :: _) as allowed) =>
      rebound <--
        (if (length allowed =? 1)%nat then
           match PyDict.getitem gen_text_dict first with
           | Some s => Ok (Some s)
           | None => Raise KeyError
           end
         else Ok None) ;;
      st <-- prune_keys (length gen_text_dict) O (PyDict.used gen_text_dict)
               allowed gen_text_dict rebound ;;
      Ok (match st.2 with
          | Some s => RStr s
          | None => RDict st.1
          end)
  | _ => Ok (RDict gen_text_dict)
  end.

(** The body of [for output in outputs] (lines 374-413). *)
Definition schema_record (tok : tokenizer) (normalize_key : bool)
    (schema_tokens : list string) (schema_return : option (list string))
    (output : list Z) : result record :=
  remove_fields schema_return
    (schema_fields tok normalize_key schema_tokens output).

(** ** generate: plain text mode *)

(** A whitespace character, as [\s] sees it on ASCII text. *)
Definition is_space (c : ascii) : bool :=
  let n := nat_of_ascii c in
  ((9 <=? n) && (n <=? 13) || (28 <=? n) && (n <=? 32))%nat.

(** [re.sub(r"^\s+", "", text)]. *)
Fixpoint lstrip_spaces (text : string) : string :=
  match text with
  | EmptyString => EmptyString
  | String c text' => if is_space c then lstrip_spaces text' else text
  end.

(** [len(x)] of a string, as an integer. *)
Definition len (x : string) : Z := Z.of_nat (String.length x).

Fixpoint string_drop (k : nat) (s : string) : string :=
  match k, s with
  | O, _ => s
  | S _, EmptyString => EmptyString
  | S k', String _ s' => string_drop k' s'
  end.

(** [text.replace(old, new, 1)]. *)
Fixpoint replace_first (old new text : string) : string :=
  if String.prefix old text then new ++ string_drop (String.length old) text
  else match text with
       | EmptyString => EmptyString
       | String c text' => String c (replace_first old new text')
       end.

Definition esc : string := String (ascii_of_nat 27) EmptyString.

(** [text.replace(prompt_text, f"\033[1m{prompt_text}\033[0m", 1)]. *)
Definition bold_prompt (prompt_text text : string) : string :=
  replace_first prompt_text (esc ++ "[1m" ++ prompt_text ++ esc ++ "[0m") text.

Module Gen.

(** The keyword arguments of [generate]. *)
Record args : Type := {
  n : Z;
  prompt : string;
  prepend_bos : option bool;
  min_length : option Z;
  max_length : Z;
  return_as_list : bool;
  seed : option Z;
  pad_token_id : option Z;
  schema : bool;
  normalize_key : bool;
  use_cache : bool;
  lstrip : bool;
  nonempty_output : bool;
  skip_special_tokens : bool
}.

(** What [generate] acts on besides its arguments: the global random
    state, and a count of the sampling passes asked of the model. *)
Record world : Set := {
  rng : rng_state;
  model_calls : nat
}.

Inductive value : Type :=
| VRecords (gen_texts : list record)
| VRecord (gen_text : record)
| VTexts (gen_texts : list string).

(** How a call ends: it returns a value, prints one and returns
    nothing, or raises.  [OutOfFuel] is not an outcome of the program:
    it marks a run of the [while True] loop cut off by the bound on
    its rounds. *)
Inductive outcome : Type :=
| Returned (v : value)
| Printed (v : value)
| Raised (e : exn)
| OutOfFuel.

(** One call of [self.model.generate]. *)
Definition sample (mdl : model) (req : sampling_request) (w : world)
  : list (list Z) * world :=
  (model_generate mdl req (rng w),
   {| rng := draw (rng w); model_calls := S (model_calls w) |}).

(** [if seed: reset_seed()]. *)
Definition reset_if_seeded (a : args) (w : world) : world :=
  if truthy_int (seed a)
  then {| rng := reset_seed (rng w); model_calls := model_calls w |}
  else w.

(** Lines 430-444: decoding and cleanup of a sampled batch. *)
Definition clean_texts (tok : tokenizer) (a : args) (outputs : list (list Z))
  : list string :=
  let gen_texts :=
    map (fun output => decode tok output (skip_special_tokens a)) outputs in
  let gen_texts :=
    if lstrip a then map lstrip_spaces gen_texts else gen_texts in
  if nonempty_output a then
    match min_length a with
    | Some m =>
        if negb (m =? 0) then List.filter (fun x => m <? len x) gen_texts
        else List.filter (fun x => 0 <? len x) gen_texts
    | None => List.filter (fun x => 0 <? len x) gen_texts
    end
  else gen_texts.

(** Lines 364-426: the schema branch of the loop body. *)
Definition schema_branch (tok : tokenizer) (mdl : model) (a : args)
    (outputs : list (list Z)) (w : world) : outcome * world :=
  match schema_tokens_attr (config mdl) with
  | None => (Raised AttributeError, w)
  | Some schema_tokens =>
      let schema_return := schema_return_attr (config mdl) in
      match result_mapM
              (schema_record tok (normalize_key a) schema_tokens
                 schema_return) outputs with
      | Raise e => (Raised e, w)
      | Ok gen_texts =>
          let w' := reset_if_seeded a w in
          if negb (return_as_list a) then (Printed (VRecords gen_texts), w')
          else if 1 <? n a then (Returned (VRecords gen_texts), w')
          else match gen_texts with
               | gen_text :: _ => (Returned (VRecord gen_text), w')
               | [] => (Raised IndexError, w')
               end
      end
  end.

(** Lines 450-468: the end of the plain branch, reached with a batch
    that is not empty. *)
Definition plain_finish (a : args) (first : string) (rest : list string)
    (w : world) : outcome * world :=
  let w' := reset_if_seeded a w in
  if negb (return_as_list a) then
    let gen_texts :=
      if truthy_str (prompt a)
      then map (bold_prompt (prompt a)) (first :: rest)
      else first :: rest in
    if 1 <? n a then (Printed (VTexts gen_texts), w')
    else (Printed (VTexts (take 1 gen_texts)), w')
  else (Returned (VTexts (first :: rest)), w').

(** Lines 350-468: [while True], cut off after [fuel] rounds. *)
Fixpoint generate_loop (fuel : nat) (tok : tokenizer) (mdl : model)
    (a : args) (req : sampling_request) (w : world) : outcome * world :=
  match fuel with
  | O => (OutOfFuel, w)
  | S fuel' =>
      let (outputs, w1) := sample mdl req w in
      if schema a then schema_branch tok mdl a outputs w1
      else
        match clean_texts tok a outputs with
        | [] => generate_loop fuel' tok mdl a req w1
        | first :: rest => plain_finish a first rest w1
        end
  end.

(** Lines 324-336: the prompt handed to the model. *)
Definition make_input_ids (tok : tokenizer) (mdl : model) (a : args)
  : option (list Z) :=
  let ids := if truthy_str (prompt a) then Some (encode tok (prompt a))
             else None in
  let bos := match prepend_bos a with
             | None => line_by_line (config mdl)
             | Some b => Some b
             end in
  match bos with
  | Some true =>
      match ids with
      | Some l => Some (bos_token_id tok :: l)
      | None => Some [bos_token_id tok]
      end
  | _ => ids
  end.

(** Lines 341-348. *)
Definition make_request (tok : tokenizer) (mdl : model) (a : args)
  : sampling_request :=
  {| input_ids := make_input_ids tok mdl a;
     req_min_length := min_length a;
     req_max_length := Z.min (max_context (config mdl)) (max_length a);
     num_return_sequences := n a;
     req_pad_token_id :=
       match pad_token_id a with
       | Some p => Some p
       | None => if truthy_int (pad_token_id_attr tok)
                 then pad_token_id_attr tok else eos_token_id_attr tok
       end;
     req_use_cache := use_cache a |}.

(** [if seed: set_seed(seed)]. *)
Definition seed_if_given (a : args) (w : world) : world :=
  match seed a with
  | Some s =>
      if negb (s =? 0)
      then {| rng := set_seed s (rng w); model_calls := model_calls w |}
      else w
  | None => w
  end.

(** The assertion of lines 318-322. *)
Definition prompt_fits (tok : tokenizer) (mdl : model) (a : args) : bool :=
  negb (truthy_str (prompt a))
  || (Z.of_nat (length (encode tok (prompt a))) <? max_context (config mdl)).

(** [aitextgen.generate]. *)
Definition generate (fuel : nat) (tok : tokenizer) (mdl : model) (a : args)
    (w : world) : outcome * world :=
  if prompt_fits tok mdl a then
    generate_loop fuel tok mdl a (make_request tok mdl a) (seed_if_given a w)
  else (Raised AssertionError, w).

End Gen.

(** ** train: the trainer's run configuration *)

(** The values stored in [train_params]. *)
Inductive pyval : Type :=
| PNone
| PBool (b : bool)
| PInt (z : Z)
| PFloat (f : float)
| PStr (s : string)
| PObj (class : string)
| PObjs (classes : list string).

Module Train.

(** The keyword arguments of [train] that the run configuration
    depends on. *)
Record args : Type := {
  fp16 : bool;
  fp16_opt_level : string;
  n_gpu : Z;
  tpu_cores : Z;
  max_grad_norm : float;
  gradient_accumulation_steps : Z;
  num_steps : Z;
  loggers : list string;
  benchmark : bool;
  progress_bar_refresh_rate : Z;
  use_deepspeed : bool
}.

(** What [train] reads from its environment. *)
Record env : Type := {
  cuda_is_available : bool;
  platform_system : string
}.

(** Line 626. *)
Definition is_gpu_used (e : env) (a : args) : bool :=
  cuda_is_available e && negb (n_gpu a =? 0).

(** [n_gpu] after lines 687-696. *)
Definition resolved_n_gpu (e : env) (a : args) : Z :=
  let n_gpu := if negb (is_gpu_used e a) then 0 else n_gpu a in
  if String.eqb (platform_system e) "Windows" && is_gpu_used e a
     && negb (n_gpu =? 1)
  then 1 else n_gpu.

(** [deepspeed_plugin] after lines 699-705. *)
Definition deepspeed_plugin (e : env) (a : args) : pyval :=
  if is_gpu_used e a && use_deepspeed a then PObj "DeepSpeedPlugin"
  else PNone.

(** [fp16] after lines 699-705. *)
Definition resolved_fp16 (e : env) (a : args) : bool :=
  if is_gpu_used e a && use_deepspeed a
  then (if negb (fp16 a) then true else fp16 a)
  else fp16 a.

(** [train_params] as it is handed to [pl.Trainer] (lines 707-754). *)
Definition train_params (e : env) (a : args) : gmap string pyval :=
  let n_gpu := resolved_n_gpu e a in
  let params : gmap string pyval :=
    <["plugins" := deepspeed_plugin e a]>
    (<["callbacks" := PObjs ["ATGProgressBar"]]>
    (<["progress_bar_refresh_rate" := PInt (progress_bar_refresh_rate a)]>
    (<["weights_summary" := PNone]>
    (<["logger" := match loggers a with
                   | [] => PBool false
                   | l => PObjs l
                   end]>
    (<["checkpoint_callback" := PBool false]>
    (<["gradient_clip_val" := PFloat (max_grad_norm a)]>
    (<["max_steps" := PInt (num_steps a)]>
    (<["gpus" := PInt n_gpu]>
    (<["accumulate_grad_batches" := PInt (gradient_accumulation_steps a)]>
     ∅))))))))) in
  let params :=
    if resolved_fp16 e a then
      <["amp_backend" := PStr "native"]>
      (<["amp_level" := PStr (fp16_opt_level a)]>
      (<["precision" := PInt 32]> params))
    else params in
  let params :=
    if 0 <? tpu_cores a then
      <["gpus" := PInt 0]> (<["tpu_cores" := PInt (tpu_cores a)]> params)
    else params in
  let n_gpu := if 0 <? tpu_cores a then 0 else n_gpu in
  let params :=
    if is_gpu_used e a && benchmark a
    then <["benchmark" := PBool true]> params else params in
  let params :=
    if 1 <? n_gpu
    then <["distributed_backend" := PStr "ddp"]> params else params in
  <["amp_backend" := PStr "native"]> (<["amp_level" := PStr "O1"]> params).

End Train.

(** ** cross_train: the decay schedule *)

(** An argument that is either one value or a list with one value per
    dataset ([Union[float, List[float]]]). *)
Inductive scalar_or_list (A : Type) : Type :=
| Scalar (a : A)
| PerDataset (l : list A).

Arguments Scalar {A} a.
Arguments PerDataset {A} l.

(** [float(2 ** x)], exact up to the largest finite power of two. *)
Fixpoint float_pow2 (x : nat) : float :=
  match x with
  | O => 1%float
  | S x' => (2 * float_pow2 x')%float
  end.

(** Lines 799-800.  Dividing a float by the integer [2 ** x] converts the
    integer first, which raises [OverflowError] from [2 ** 1024] on. *)
Definition cross_train_learning_rates (learning_rate : scalar_or_list float)
    (datasets : nat) : result (list float) :=
  match learning_rate with
  | PerDataset l => Ok l
  | Scalar r =>
      if (datasets <=? 1024)%nat
      then Ok (map (fun x => (r / float_pow2 x)%float) (seq 0 datasets))
      else Raise OverflowError
  end.

(** The integer [s] rounded to the 53 significant bits of a double, ties
    to even: the float nearest to [s], as an integer again.  Integers
    below [2 ** 53] in absolute value are doubles as they are. *)
Definition round_to_53_bits (s : Z) : Z :=
  let a := Z.abs s in
  if a <? 2 ^ 53 then s
  else
    let ulp := 2 ^ (Z.log2 a - 52) in
    let q := a / ulp in
    let r := a mod ulp in
    let q' := if 2 * r <? ulp then q
              else if ulp <? 2 * r then q + 1
              else if Z.even q then q else q + 1 in
    Z.sgn s * (q' * ulp).

(** [int(num_steps / (2 ** x))].  The true division of two integers
    answers the double nearest to their quotient; dividing by a power of
    two only moves the exponent, so that double is the one nearest to
    [num_steps], scaled.  The division raises [OverflowError] when the
    result is beyond the largest double (from [2 ** 1024] on), and a
    result too small for a double is a zero.  [int] truncates towards
    zero. *)
Definition int_true_div (num_steps : Z) (x : nat) : result Z :=
  let nearest := round_to_53_bits num_steps in
  if 2 ^ (1024 + Z.of_nat x) <=? Z.abs nearest then Raise OverflowError
  else Ok (Z.quot nearest (2 ^ Z.of_nat x)).

(** Lines 802-803. *)
Definition cross_train_num_steps (num_steps : scalar_or_list Z)
    (datasets : nat) : result (list Z) :=
  match num_steps with
  | PerDataset l => Ok l
  | Scalar s => result_mapM (int_true_div s) (seq 0 datasets)
  end.

(** Lines 799-818: the learning rate and the number of steps of each call
    of [self.train], in order. *)
Definition cross_train (learning_rate : scalar_or_list float)
    (num_steps : scalar_or_list Z) (datasets : nat)
  : result (list (float * Z)) :=
  rates <-- cross_train_learning_rates learning_rate datasets ;;
  steps <-- cross_train_num_steps num_steps datasets ;;
  if (datasets =? length rates)%nat && (length rates =? length steps)%nat
  then Ok (zip rates steps)
  else Raise AssertionError.

(** ** A character-level tokenizer and a replaying model

    Small collaborators on which the definitions above can be run. *)

Definition char_encode (s : string) : list Z :=
  map (fun c => Z.of_nat (nat_of_ascii c)) (list_ascii_of_string s).

Definition char_decode (ids : list Z) (_ : bool) : string :=
  string_of_list_ascii (map (fun z => ascii_of_nat (Z.to_nat z)) ids).

Definition char_tokenizer : tokenizer :=
  {| encode := char_encode;
     decode := char_decode;
     bos_token_id := 0;
     pad_token_id_attr := None;
     eos_token_id_attr := Some 0 |}.

(** A tokenizer that encodes "Q:" as [10; 20] and "A:" as [99]. *)
Definition scenario_tokenizer : tokenizer :=
  {| encode := fun s =>
       if String.eqb s "Q:" then [10; 20]
       else if String.eqb s "A:" then [99] else [];
     decode := char_decode;
     bos_token_id := 0;
     pad_token_id_attr := None;
     eos_token_id_attr := Some 0 |}.

(** A model that answers its [k]-th sampling pass since the last
    (re)seeding with the [k]-th batch of [batches] (and with the empty
    text once they are used up). *)
Definition replay_model (cfg : model_config) (batches : list (list string))
  : model :=
  {| config := cfg;
     model_generate := fun _ r =>
       map char_encode (nth (draws r) batches [""]) |}.

(** A model configured with three delimiters, and the arguments of a
    call that asks for one text. *)
Definition demo_config (schema_return : option (list string)) : model_config :=
  {| max_context := 1024;
     line_by_line := None;
     schema_tokens_attr := Some ["Q:"; "A:"; "Z:"];
     schema_return_attr := schema_return |}.

Definition demo_args (schema return_as_list : bool) (seed min_length : option Z)
  : Gen.args :=
  {| Gen.n := 1;
     Gen.prompt := "";
     Gen.prepend_bos := None;
     Gen.min_length := min_length;
     Gen.max_length := 256;
     Gen.return_as_list := return_as_list;
     Gen.seed := seed;
     Gen.pad_token_id := None;
     Gen.schema := schema;
     Gen.normalize_key := true;
     Gen.use_cache := true;
     Gen.lstrip := true;
     Gen.nonempty_output := true;
     Gen.skip_special_tokens := true |}.

Definition fresh_world : Gen.world :=
  {| Gen.rng := {| seeded_by := None; draws := 0 |}; Gen.model_calls := 0 |}.

(** ** __init__: the schema configuration *)

(** Lines 212-216: [schema_tokens] and [schema_return] are stored on the
    model's configuration only when they are given and not empty; what a
    loaded configuration already holds stays otherwise. *)
Definition init_config (cfg : model_config)
    (schema_tokens schema_return : option (list string)) : model_config :=
  {| max_context := max_context cfg;
     line_by_line := line_by_line cfg;
     schema_tokens_attr :=
       if truthy_list schema_tokens then schema_tokens
       else schema_tokens_attr cfg;
     schema_return_attr :=
       if truthy_list schema_return then schema_return
       else schema_return_attr cfg |}.

(** The object after [__init__], as far as [generate] reads it. *)
Definition init_model (mdl : model)
    (schema_tokens schema_return : option (list string)) : model :=
  {| config := init_config (config mdl) schema_tokens schema_return;
     model_generate := model_generate mdl |}.

(** ** generate_one and generate_to_file *)

(** The keyword arguments a wrapper hands to [generate]: its own [n] and
    [return_as_list], and the caller's other keywords.  [seed] is given
    apart because [generate_to_file] keeps the keyword for itself, so
    that its calls of [generate] run with [seed=None]. *)
Definition call_args (kwargs : Gen.args) (n : Z) (return_as_list : bool)
    (seed : option Z) : Gen.args :=
  {| Gen.n := n;
     Gen.prompt := Gen.prompt kwargs;
     Gen.prepend_bos := Gen.prepend_bos kwargs;
     Gen.min_length := Gen.min_length kwargs;
     Gen.max_length := Gen.max_length kwargs;
     Gen.return_as_list := return_as_list;
     Gen.seed := seed;
     Gen.pad_token_id := Gen.pad_token_id kwargs;
     Gen.schema := Gen.schema kwargs;
     Gen.normalize_key := Gen.normalize_key kwargs;
     Gen.use_cache := Gen.use_cache kwargs;
     Gen.lstrip := Gen.lstrip kwargs;
     Gen.nonempty_output := Gen.nonempty_output kwargs;
     Gen.skip_special_tokens := Gen.skip_special_tokens kwargs |}.

(** How [generate_one] ends.  It returns a Python object, a string or a
    dictionary ([record]); [OneTypeError] stands for indexing [None]. *)
Inductive one_outcome : Type :=
| OneReturned (r : record)
| OneRaised (e : exn)
| OneTypeError
| OneOutOfFuel.

(** [value[0]] on what [generate] returned: the first element of a list,
    the first character of a string, the entry under the key [0] of a
    dictionary (its keys are strings, so there is none). *)
Definition first_of (v : Gen.value) : result record :=
  match v with
  | Gen.VTexts (text :: _) => Ok (RStr text)
  | Gen.VTexts [] => Raise IndexError
  | Gen.VRecords (gen_text :: _) => Ok gen_text
  | Gen.VRecords [] => Raise IndexError
  | Gen.VRecord (RDict _) => Raise KeyError
  | Gen.VRecord (RStr (String c _)) => Ok (RStr (String c EmptyString))
  | Gen.VRecord (RStr EmptyString) => Raise IndexError
  end.

(** [aitextgen.generate_one]:
    [self.generate(n=1, return_as_list=True, **kwargs)[0]]. *)
Definition generate_one (fuel : nat) (tok : tokenizer) (mdl : model)
    (kwargs : Gen.args) (w : Gen.world) : one_outcome * Gen.world :=
  let (out, w') :=
    Gen.generate fuel tok mdl (call_args kwargs 1 true (Gen.seed kwargs)) w in
  match out with
  | Gen.Returned v =>
      (match first_of v with
       | Ok r => OneReturned r
       | Raise e => OneRaised e
       end, w')
  | Gen.Printed _ => (OneTypeError, w')
  | Gen.Raised e => (OneRaised e, w')
  | Gen.OutOfFuel => (OneOutOfFuel, w')
  end.

(** What one [f.write("{}\n{}".format(gen_text, sample_delim))] formats:
    a string, or a record of schema mode. *)
Inductive item : Type :=
| ItemText (s : string)
| ItemRecord (r : record).

(** [for gen_text in gen_texts]: the elements of a list; the keys of a
    dictionary; the characters of a string. *)
Definition written_items (v : Gen.value) : list item :=
  match v with
  | Gen.VTexts gen_texts => map ItemText gen_texts
  | Gen.VRecords gen_texts => map ItemRecord gen_texts
  | Gen.VRecord (RDict d) => map ItemText (PyDict.keys d)
  | Gen.VRecord (RStr s) =>
      map (fun c => ItemText (String c EmptyString)) (list_ascii_of_string s)
  end.

(** How [generate_to_file] ends: the file is written and closed, or an
    exception leaves the function ([FileZeroDivision] for [n % 0],
    [FileTypeError] for iterating [None]). *)
Inductive file_outcome : Type :=
| FileDone
| FileRaised (e : exn)
| FileZeroDivision
| FileTypeError
| FileOutOfFuel.

(** Lines 538-543: [rounds] calls of [generate], each batch appended to
    what the file holds. *)
Fixpoint write_batches (rounds fuel : nat) (tok : tokenizer) (mdl : model)
    (a : Gen.args) (w : Gen.world) (written : list item)
  : file_outcome * Gen.world * list item :=
  match rounds with
  | O => (FileDone, w, written)
  | S rounds' =>
      let (out, w') := Gen.generate fuel tok mdl a w in
      match out with
      | Gen.Returned v =>
          write_batches rounds' fuel tok mdl a w' (written ++ written_items v)
      | Gen.Printed _ => (FileTypeError, w', written)
      | Gen.Raised e => (FileRaised e, w', written)
      | Gen.OutOfFuel => (FileOutOfFuel, w', written)
      end
  end.

(** Lines 521-528: the seed in use, where [drawn] is the number that
    [randint(10 ** 7, 10 ** 8 - 1)] answers when it is called. *)
Definition file_seed (destination_path : option string) (seed : option Z)
    (drawn : Z) : option Z :=
  match destination_path, seed with
  | None, None => Some drawn
  | _, _ => seed
  end.

Definition with_rng (w : Gen.world) (r : rng_state) : Gen.world :=
  {| Gen.rng := r; Gen.model_calls := Gen.model_calls w |}.

(** [aitextgen.generate_to_file]; the result is the outcome, the world
    left behind and the items written to the file.  [randint] is
    [random.randint(10 ** 7, 10 ** 8 - 1)] as a function of the global
    random state it draws from, the state the call starts in; its
    answers are 8-digit numbers, so that a drawn seed is always applied
    by the [set_seed] that follows, which overwrites the state the draw
    has left. *)
Definition generate_to_file (fuel : nat) (tok : tokenizer) (mdl : model)
    (n batch_size : Z) (destination_path : option string) (seed : option Z)
    (randint : rng_state -> Z) (kwargs : Gen.args) (w : Gen.world)
  : file_outcome * Gen.world * list item :=
  if batch_size =? 0 then (FileZeroDivision, w, [])
  else if negb (n mod batch_size =? 0) then (FileRaised AssertionError, w, [])
  else
    let seed := file_seed destination_path seed (randint (Gen.rng w)) in
    let w1 :=
      match seed with
      | Some s => if negb (s =? 0) then with_rng w (set_seed s (Gen.rng w))
                  else w
      | None => w
      end in
    let '(out, w2, written) :=
      write_batches (Z.to_nat (n / batch_size)) fuel tok mdl
        (call_args kwargs batch_size true None) w1 [] in
    match out with
    | FileDone =>
        (FileDone,
         if truthy_int seed then with_rng w2 (reset_seed (Gen.rng w2)) else w2,
         written)
    | _ => (out, w2, written)
    end.

(** ** train: frozen layers *)

(** Lines 645-651: [freeze_layers] after the check, or the failed
    assertion. *)
Definition train_freeze_layers (freeze_layers : bool)
    (openai_tf_gpt2 : option string) (num_layers_freeze : option Z)
    (n_layer : Z) : result bool :=
  if freeze_layers
     || match openai_tf_gpt2 with
        | Some size => String.eqb size "1558M"
        | None => false
        end
  then
    match num_layers_freeze with
    | Some k =>
        if negb (k =? 0) && negb (k <? n_layer) then Raise AssertionError
        else Ok true
    | None => Ok true
    end
  else Ok false.

(** ** Notions used in the statements *)

(** [small] occurs in [large] as a contiguous subsequence. *)
Definition occurs_in (small large : list Z) : Prop :=
  exists pre post, large = pre ++ small ++ post.

(** A world with [c] more sampling passes on its counter. *)
Definition shift (c : nat) (w : Gen.world) : Gen.world :=
  {| Gen.rng := Gen.rng w; Gen.model_calls := (c + Gen.model_calls w)%nat |}.

(** The order of the (delimiter, position) pairs. *)
Definition pos_le (p q : string * Z) : Prop := p.2 <= q.2.

(** * Properties *)

(** ** Slices and the search for a subsequence *)

Lemma starts_with_spec small large :
  starts_with small large = true <-> exists post, large = small ++ post.
Proof.
  revert large. induction small as [|x small IH]; intros large; simpl.
  - split; [intros _; by exists large | done].
  - destruct large as [|y large].
    + split; [done | intros [post H]; discriminate H].
    + rewrite andb_true_iff, Z.eqb_eq, IH. split.
      * intros [-> [post ->]]. by exists post.
      * intros [post H]. injection H as -> ->. split; [done | by exists post].
Qed.

Lemma find_from_range large small idx :
  find_from large small idx = -1
  \/ idx <= find_from large small idx < idx + Z.of_nat (length large).
Proof.
  revert idx. induction large as [|y large IH]; intros idx; simpl.
  - by left.
  - destruct (starts_with small (y :: large)).
    + right. lia.
    + destruct (IH (idx + 1)) as [H | H]; [by left | right; lia].
Qed.

Lemma find_from_none large small idx :
  small <> [] -> ~ occurs_in small large -> find_from large small idx = -1.
Proof.
  intros Hne. revert idx. induction large as [|y large IH]; intros idx Hno.
  - done.
  - simpl. destruct (starts_with small (y :: large)) eqn:Hs.
    + apply starts_with_spec in Hs as [post Hpost]. destruct Hno.
      exists [], post. by rewrite Hpost.
    + apply IH. intros (pre & post & ->). apply Hno.
      by exists (y :: pre), post.
Qed.

Lemma find_from_found large small idx :
  0 <= idx -> find_from large small idx <> -1 ->
  exists pre post,
    large = pre ++ small ++ post
    /\ find_from large small idx = idx + Z.of_nat (length pre).
Proof.
  revert idx. induction large as [|y large IH]; intros idx Hidx; simpl.
  - done.
  - destruct (starts_with small (y :: large)) eqn:Hs.
    + intros _. apply starts_with_spec in Hs as [post Hpost].
      exists [], post. simpl. split; [done | lia].
    + intros H. destruct (IH (idx + 1)) as (pre & post & -> & Hpos);
        [lia | done |].
      exists (y :: pre), post. split; [done |]. rewrite Hpos. simpl length. lia.
Qed.

(** The search answers [-1] or an index into the sequence. *)
Lemma find_index_of_subset_range large small :
  find_index_of_subset large small = -1
  \/ 0 <= find_index_of_subset large small < Z.of_nat (length large).
Proof.
  destruct small as [|x small]; [by left |].
  apply (find_from_range large (x :: small) 0).
Qed.

(** A subsequence that does not occur is answered with the sentinel. *)
Lemma find_index_of_subset_absent large small :
  ~ occurs_in small large -> find_index_of_subset large small = -1.
Proof.
  destruct small as [|x small]; [done |].
  intros H. by apply find_from_none.
Qed.

(** Any other answer is the start of an occurrence. *)
Lemma find_index_of_subset_found large small :
  find_index_of_subset large small <> -1 ->
  exists pre post,
    large = pre ++ small ++ post
    /\ find_index_of_subset large small = Z.of_nat (length pre).
Proof.
  destruct small as [|x small]; [done |].
  intros H. destruct (find_from_found large (x :: small) 0) as
    (pre & post & Hl & Hp); [lia | done |].
  exists pre, post. split; [done |]. unfold find_index_of_subset. lia.
Qed.

(** ** The stable sort by position *)

Lemma insert_by_pos_perm x l : insert_by_pos x l ≡ₚ x :: l.
Proof.
  induction l as [|y l IH]; simpl; [done |].
  destruct (x.2 <=? y.2); [done |].
  rewrite IH. apply Permutation_swap.
Qed.

Lemma sort_by_pos_perm l : sort_by_pos l ≡ₚ l.
Proof.
  induction l as [|x l IH]; simpl; [done |].
  rewrite insert_by_pos_perm. by rewrite IH.
Qed.

Lemma insert_by_pos_sorted x l :
  StronglySorted pos_le l -> StronglySorted pos_le (insert_by_pos x l).
Proof.
  induction 1 as [|y l Hs IH Hy]; simpl.
  - repeat constructor.
  - destruct (x.2 <=? y.2) eqn:Hle.
    + apply Z.leb_le in Hle. constructor; [by constructor |].
      constructor; [done |].
      eapply Forall_impl; [exact Hy |]. unfold pos_le. intros; simpl in *; lia.
    + apply Z.leb_gt in Hle. constructor; [done |].
      rewrite insert_by_pos_perm. constructor; [unfold pos_le; lia | done].
Qed.

Lemma sort_by_pos_sorted l : StronglySorted pos_le (sort_by_pos l).
Proof.
  induction l as [|x l IH]; simpl; [constructor |].
  by apply insert_by_pos_sorted.
Qed.

Lemma strongly_sorted_lookup (l : list (string * Z)) i j p q :
  StronglySorted pos_le l ->
  l !! i = Some p -> l !! j = Some q -> (i <= j)%nat -> p.2 <= q.2.
Proof.
  intros Hs. revert i j. induction Hs as [|y l Hs IH Hy]; intros i j.
  - done.
  - destruct i as [|i], j as [|j]; simpl; intros Hp Hq Hij.
    + injection Hp as <-. injection Hq as <-. lia.
    + injection Hp as <-. rewrite Forall_forall in Hy.
      apply (Hy q). eapply list_elem_of_lookup_2, Hq.
    + lia.
    + apply (IH i j); [done | done | lia].
Qed.

(** The sort is stable: pairs of equal position keep their order. *)
Lemma insert_by_pos_stable z x l :
  List.filter (fun p => p.2 =? z) (insert_by_pos x l)
  = List.filter (fun p => p.2 =? z) (x :: l).
Proof.
  induction l as [|y l IH]; simpl; [done |].
  destruct (x.2 <=? y.2) eqn:Hle; [done |].
  apply Z.leb_gt in Hle. simpl in *. rewrite IH.
  destruct (x.2 =? z) eqn:Hx, (y.2 =? z) eqn:Hy; try done.
  apply Z.eqb_eq in Hx, Hy. lia.
Qed.

Lemma sort_by_pos_stable z l :
  List.filter (fun p => p.2 =? z) (sort_by_pos l)
  = List.filter (fun p => p.2 =? z) l.
Proof.
  induction l as [|x l IH]; simpl; [done |].
  rewrite insert_by_pos_stable. simpl. by rewrite IH.
Qed.

(** The pairs before the sort: each delimiter with the answer of the
    search for its encoding. *)
Lemma schema_token_indices_perm tok schema_tokens output :
  schema_token_indices tok schema_tokens output
  ≡ₚ map (fun delim => (delim, find_index_of_subset output (encode tok delim)))
       schema_tokens.
Proof.
  unfold schema_token_indices, schema_tokens_enc. rewrite sort_by_pos_perm.
  induction schema_tokens as [|d l IH]; simpl; [done | by rewrite IH].
Qed.

Lemma schema_token_indices_elem tok schema_tokens output p :
  p ∈ schema_token_indices tok schema_tokens output <->
  p.1 ∈ schema_tokens /\ p.2 = find_index_of_subset output (encode tok p.1).
Proof.
  rewrite schema_token_indices_perm, list_elem_of_fmap. split.
  - intros (d & -> & Hd). done.
  - intros [Hd Hp]. exists p.1. split; [| done]. destruct p; simpl in *. by subst.
Qed.

Lemma schema_token_indices_ge tok schema_tokens output i p :
  schema_token_indices tok schema_tokens output !! i = Some p -> -1 <= p.2.
Proof.
  intros H. apply list_elem_of_lookup_2, schema_token_indices_elem in H as [_ ->].
  destruct (find_index_of_subset_range output (encode tok p.1)); lia.
Qed.

(** ** Dictionaries *)

Lemma getitem_setitem_eq d k v :
  PyDict.getitem (PyDict.setitem d k v) k = Some v.
Proof.
  induction d as [|[[k' v']|] d IH]; simpl.
  - by rewrite String.eqb_refl.
  - destruct (String.eqb k' k) eqn:Hk; simpl.
    + by rewrite String.eqb_refl.
    + by rewrite Hk.
  - done.
Qed.

Lemma getitem_setitem_ne d k v k0 :
  k <> k0 -> PyDict.getitem (PyDict.setitem d k v) k0 = PyDict.getitem d k0.
Proof.
  intros Hne. induction d as [|[[k' v']|] d IH]; simpl.
  - apply String.eqb_neq in Hne. by rewrite Hne.
  - destruct (String.eqb k' k) eqn:Hk; simpl.
    + apply String.eqb_eq in Hk as ->.
      apply String.eqb_neq in Hne. by rewrite Hne.
    + by rewrite IH.
  - done.
Qed.

(** ** The field loop *)

Section FieldLoop.

Variables (tok : tokenizer) (normalize_key : bool) (output : list Z).
Variable sti : list (string * Z).

Let key_of (p : string * Z) : string := field_key normalize_key p.1.

(** A key that holds [v] keeps it when every pair still to come that
    stores under this key stores [v]. *)
Lemma fill_fields_keeps k v todo : forall i d,
  PyDict.getitem d k = Some v ->
  (forall j p, todo !! j = Some p -> key_of p = k ->
               field_text tok output sti (i + j) p = v) ->
  PyDict.getitem (fill_fields tok normalize_key output sti i todo d) k
  = Some v.
Proof.
  induction todo as [|p0 todo IH]; intros i d Hd Hall; simpl; [done |].
  apply IH.
  - destruct (decide (key_of p0 = k)) as [Hk | Hk].
    + unfold key_of in Hk. rewrite Hk.
      rewrite <- (Hall O p0 eq_refl Hk), Nat.add_0_r.
      apply getitem_setitem_eq.
    + by rewrite getitem_setitem_ne.
  - intros j p Hj Hk. rewrite <- (Hall (S j) p Hj Hk). f_equal. lia.
Qed.

(** The value under a key is the one stored by the last pair with this
    key; it is enough that the later pairs with this key store the
    same value. *)
Lemma fill_fields_lookup v todo : forall i d j p,
  todo !! j = Some p ->
  field_text tok output sti (i + j) p = v ->
  (forall j' p', (j < j')%nat -> todo !! j' = Some p' ->
                 key_of p' = key_of p ->
                 field_text tok output sti (i + j') p' = v) ->
  PyDict.getitem (fill_fields tok normalize_key output sti i todo d)
    (key_of p) = Some v.
Proof.
  induction todo as [|p0 todo IH]; intros i d j p Hj Hv Hlater; [done |].
  destruct j as [|j]; simpl in *.
  - injection Hj as ->. apply fill_fields_keeps.
    + rewrite <- Hv, Nat.add_0_r. apply getitem_setitem_eq.
    + intros j' p' Hj' Hk. rewrite <- (Hlater (S j') p'); [| lia | done..].
      f_equal. lia.
  - apply (IH (S i) _ j p Hj).
    + rewrite <- Hv. f_equal. lia.
    + intros j' p' Hlt Hj' Hk.
      rewrite <- (Hlater (S j') p'); [| lia | done..]. f_equal. lia.
Qed.

End FieldLoop.

(** The stored value of a pair that was found. *)
Lemma field_text_found tok output sti i delim start :
  start <> -1 ->
  field_text tok output sti i (delim, start)
  = decode tok (pyslice output start (end_index sti i)) true.
Proof.
  intros H. unfold field_text. simpl.
  by destruct (Z.eqb_spec start (-1)).
Qed.

(** The stored value of a pair that was not found. *)
Lemma field_text_absent tok output sti i delim :
  field_text tok output sti i (delim, -1) = "".
Proof. done. Qed.

(** The output [10; 20; 99; 30; 40] with "Q:" encoded as [10; 20] and
    "A:" as [99]: "Q:" is found at 0 and "A:" at 2, the field of "Q:" is
    decoded from [output[0:1]] and the field of "A:" from [output[2:]]. *)
Example schema_scenario :
  let output := [10; 20; 99; 30; 40] in
  let sti := schema_token_indices scenario_tokenizer ["A:"; "Q:"] output in
  sti = [("Q:", 0); ("A:", 2)]
  /\ pyslice output 0 (end_index sti 0) = [10]
  /\ pyslice output 2 (end_index sti 1) = [99; 30; 40]
  /\ PyDict.items (schema_fields scenario_tokenizer true ["A:"; "Q:"] output)
     = [("Q", char_decode [10] true); ("A", char_decode [99; 30; 40] true)].
Proof. repeat split. Qed.

(** Among the entries of a list that satisfy a decidable property, from
    any one of them on there is a last one. *)
Lemma last_index_with {A : Type} (P : A -> Prop) `{!forall x, Decision (P x)}
    (l : list A) : forall i x,
  l !! i = Some x -> P x ->
  exists j y, (i <= j)%nat /\ l !! j = Some y /\ P y
              /\ forall j' z, (j < j')%nat -> l !! j' = Some z -> ~ P z.
Proof.
  induction l as [|a l IH] using rev_ind; intros i x Hi HP; [done |].
  destruct (decide (P a)) as [Ha | Ha].
  - exists (length l), a. split; [| split; [| split]].
    + apply lookup_lt_Some in Hi. rewrite length_app in Hi. simpl in Hi. lia.
    + by rewrite list_lookup_middle.
    + done.
    + intros j' z Hlt Hj'. apply lookup_lt_Some in Hj'.
      rewrite length_app in Hj'. simpl in Hj'. lia.
  - assert (i < length l)%nat as Hlt.
    { destruct (decide (i < length l)%nat) as [| Hge]; [done | exfalso].
      pose proof (lookup_lt_Some _ _ _ Hi) as Hb.
      rewrite length_app in Hb. simpl in Hb.
      replace i with (length l) in Hi by lia.
      rewrite list_lookup_middle in Hi by done. by injection Hi as ->. }
    rewrite lookup_app_l in Hi by done.
    destruct (IH i x Hi HP) as (j & y & Hij & Hj & Hy & Hlast).
    exists j, y. split; [done |]. split; [| split; [done |]].
    + rewrite lookup_app_l; [done | by eapply lookup_lt_Some].
    + intros j' z Hjj' Hj'.
      destruct (decide (j' < length l)%nat) as [Hin | Hout].
      * rewrite lookup_app_l in Hj' by done. by eapply Hlast.
      * pose proof (lookup_lt_Some _ _ _ Hj') as Hb.
        rewrite length_app in Hb. simpl in Hb.
        replace j' with (length l) in Hj' by lia.
        rewrite list_lookup_middle in Hj' by done. by injection Hj' as <-.
Qed.

(** When no two delimiters share a field key, the record maps the key of
    a found delimiter to the slice that starts at its own position. *)
Lemma unique_key_field_value tok normalize_key schema_tokens output
    i delim start :
  let sti := schema_token_indices tok schema_tokens output in
  sti !! i = Some (delim, start) ->
  start <> -1 ->
  (forall j other, (i < j)%nat -> sti !! j = Some other ->
     field_key normalize_key other.1 <> field_key normalize_key delim) ->
  PyDict.getitem (schema_fields tok normalize_key schema_tokens output)
    (field_key normalize_key delim)
  = Some (decode tok (pyslice output start (end_index sti i)) true).
Proof.
  intros sti Hi Hfound Hkeys. unfold schema_fields. fold sti.
  change (field_key normalize_key delim)
    with (field_key normalize_key (delim, start).1).
  apply fill_fields_lookup with (j := i); [done | |].
  - simpl. by rewrite field_text_found.
  - intros j' p' Hlt Hj' Hk. by destruct (Hkeys j' p' Hlt Hj').
Qed.

(** In general the record maps the field key of a found delimiter to the
    slice of the last pair of the order that has this key. *)
Lemma shared_key_field_value tok normalize_key schema_tokens output
    i delim start :
  let sti := schema_token_indices tok schema_tokens output in
  sti !! i = Some (delim, start) ->
  start <> -1 ->
  exists j delim' start',
    (i <= j)%nat /\ sti !! j = Some (delim', start')
    /\ field_key normalize_key delim' = field_key normalize_key delim
    /\ start' <> -1
    /\ PyDict.getitem (schema_fields tok normalize_key schema_tokens output)
         (field_key normalize_key delim)
       = Some (decode tok (pyslice output start' (end_index sti j)) true).
Proof.
  intros sti Hi Hfound.
  destruct (last_index_with
              (fun p : string * Z =>
                 field_key normalize_key p.1 = field_key normalize_key delim)
              sti i (delim, start) Hi eq_refl)
    as (j & [delim' start'] & Hij & Hj & Hkey & Hlast).
  simpl in Hkey.
  assert (start' <> -1) as Hfound'.
  { pose proof (strongly_sorted_lookup sti i j _ _
                  (sort_by_pos_sorted _) Hi Hj Hij) as Hle.
    pose proof (schema_token_indices_ge tok schema_tokens output i _ Hi).
    simpl in *. lia. }
  exists j, delim', start'. repeat (split; [done |]).
  rewrite <- Hkey.
  apply unique_key_field_value; [done | done |].
  intros j' other Hlt Hj'. rewrite Hkey. by apply (Hlast j' other).
Qed.

(** C1, as the code has it: in schema mode the (delimiter, position)
    pairs are the delimiters with the positions found for them, ordered
    ascending by position.  For every pair whose delimiter was found and
    whose field key is not also the field key of a pair later in the
    order, the record maps the field key to the decoded slice
    [output[start : next_start - 1]], where [next_start] is the position
    of the next pair in the order, and to [output[start:]] when the pair
    is the last one.  The last pair that was found is the last pair of
    the order. *)
Theorem schema_fields_sliced tok normalize_key schema_tokens output
    i delim start :
  let sti := schema_token_indices tok schema_tokens output in
  sti !! i = Some (delim, start) ->
  start <> -1 ->
  (forall j other, (i < j)%nat -> sti !! j = Some other ->
     field_key normalize_key other.1 <> field_key normalize_key delim) ->
  (sti ≡ₚ map (fun d => (d, find_index_of_subset output (encode tok d)))
            schema_tokens
   /\ forall a b p q, sti !! a = Some p -> sti !! b = Some q ->
        (a <= b)%nat -> p.2 <= q.2)
  /\ PyDict.getitem (schema_fields tok normalize_key schema_tokens output)
       (field_key normalize_key delim)
     = Some (decode tok
               match sti !! S i with
               | Some next => pyslice output start (Some (next.2 - 1))
               | None => pyslice output start None
               end true)
  /\ ((forall j other, (i < j)%nat -> sti !! j = Some other -> other.2 = -1) ->
      sti !! S i = None).
Proof.
  intros sti Hi Hfound Hkeys.
  assert (forall a b p q, sti !! a = Some p -> sti !! b = Some q ->
            (a <= b)%nat -> p.2 <= q.2) as Hsorted.
  { intros a b p q Ha Hb Hab.
    eapply strongly_sorted_lookup; [apply sort_by_pos_sorted | done..]. }
  split; [split; [apply schema_token_indices_perm | done] |]. split.
  - rewrite (unique_key_field_value tok normalize_key schema_tokens
               output i delim start Hi Hfound Hkeys).
    unfold end_index. fold sti. by destruct (sti !! S i).
  - intros Hlast. destruct (sti !! S i) as [next|] eqn:Hnext; [| done].
    pose proof (Hlast (S i) next (Nat.lt_succ_diag_r i) Hnext) as Hn.
    pose proof (Hsorted i (S i) _ _ Hi Hnext (Nat.le_succ_diag_r i)) as Hle.
    pose proof (schema_token_indices_ge tok schema_tokens output i _ Hi) as Hge.
    simpl in *. lia.
Qed.

(** The field loop on the delimiters "Q:" and "A:" of the text
    "Q:hello A:world": the first pair, found at 0, stores the slice up to
    the position before the next one. *)
Lemma schema_fields_sliced_witness :
  PyDict.getitem
    (schema_fields char_tokenizer true ["A:"; "Q:"]
       (char_encode "Q:hello A:world")) "Q"
  = Some "Q:hello".
Proof.
  refine (eq_trans
            (proj1 (proj2
               (schema_fields_sliced char_tokenizer true ["A:"; "Q:"]
                  (char_encode "Q:hello A:world") 0 "Q:" 0 eq_refl
                  ltac:(discriminate) _))) _).
  - intros [|[|[|j]]] other Hlt Hj; [lia | | discriminate Hj..].
    injection Hj as <-. discriminate.
  - reflexivity.
Defined.

(** C1 as stated fails when two found delimiters share a field key: with
    key normalisation "Q:" and "Q-" both store under "Q"; in the text
    "Q:hello Q-world" both are found, and the record maps "Q" to
    "Q-world", the slice of the later pair, not to the slice "Q:hello"
    of the delimiter "Q:". *)
Lemma shared_key_slice_counterexample :
  let output := char_encode "Q:hello Q-world" in
  let schema_tokens := ["Q:"; "Q-"] in
  let sti := schema_token_indices char_tokenizer schema_tokens output in
  sti = [("Q:", 0); ("Q-", 8)]
  /\ PyDict.items (schema_fields char_tokenizer true schema_tokens output)
     = [("Q", "Q-world")]
  /\ ~ (forall i delim start,
          sti !! i = Some (delim, start) -> start <> -1 ->
          PyDict.getitem
            (schema_fields char_tokenizer true schema_tokens output)
            (field_key true delim)
          = Some (char_decode
                    match sti !! S i with
                    | Some next => pyslice output start (Some (next.2 - 1))
                    | None => pyslice output start None
                    end true)).
Proof.
  intros output schema_tokens sti.
  split; [reflexivity |]. split; [reflexivity |]. intros H.
  specialize (H 0%nat "Q:" 0 eq_refl ltac:(discriminate)).
  vm_compute in H. discriminate H.
Qed.

(** The sentinel is only answered when there is no occurrence. *)
Lemma find_from_occurs large small idx :
  small <> [] -> 0 <= idx -> occurs_in small large ->
  find_from large small idx <> -1.
Proof.
  intros Hne Hidx (pre & post & ->). revert idx Hidx.
  induction pre as [|y pre IH]; intros idx Hidx.
  - destruct small as [|x small]; [done |]. simpl app.
    unfold find_from.
    assert (starts_with (x :: small) (x :: small ++ post) = true) as ->
      by (apply starts_with_spec; by exists post).
    lia.
  - simpl. destruct (starts_with small (y :: pre ++ small ++ post)); [lia |].
    apply IH. lia.
Qed.

Lemma find_index_of_subset_sentinel large small :
  small <> [] -> find_index_of_subset large small = -1 ->
  ~ occurs_in small large.
Proof.
  intros Hne Hfind Hocc. destruct small as [|x small]; [done |].
  by apply (find_from_occurs large (x :: small) 0).
Qed.

(** C2, as the code has it: in the ascending order of the
    (delimiter, position) pairs, every pair whose delimiter was not found
    (position [-1]) comes before every pair whose delimiter was found. *)
Theorem not_found_sorts_first tok schema_tokens output i j p q :
  let sti := schema_token_indices tok schema_tokens output in
  sti !! i = Some p -> sti !! j = Some q ->
  p.2 = -1 -> q.2 <> -1 -> (i < j)%nat.
Proof.
  intros sti Hi Hj Hp Hq.
  destruct (decide (i < j)%nat) as [| Hge]; [done | exfalso].
  assert (q.2 <= p.2) as Hle.
  { eapply (strongly_sorted_lookup sti j i);
      [apply sort_by_pos_sorted | done | done | lia]. }
  pose proof (schema_token_indices_ge tok schema_tokens output j q Hj). lia.
Qed.

Lemma not_found_sorts_first_witness :
  let sti := schema_token_indices char_tokenizer ["Q:"; "A:"]
               (char_encode "Q:hello") in
  sti !! 0%nat = Some ("A:", -1) /\ sti !! 1%nat = Some ("Q:", 0)
  /\ (0 < 1)%nat.
Proof.
  split; [reflexivity |]. split; [reflexivity |].
  exact (not_found_sorts_first char_tokenizer ["Q:"; "A:"]
           (char_encode "Q:hello") 0 1 ("A:", -1) ("Q:", 0)
           eq_refl eq_refl eq_refl ltac:(discriminate)).
Defined.

(** C2 as stated fails: with the delimiters "Q:" (found at 0) and "A:"
    (not found) in the text "Q:hello", the pair of "A:" does not come
    after the pair of "Q:". *)
Lemma not_found_sorts_last_counterexample :
  let sti := schema_token_indices char_tokenizer ["Q:"; "A:"]
               (char_encode "Q:hello") in
  ~ (forall i j p q, sti !! i = Some p -> sti !! j = Some q ->
       p.2 = -1 -> q.2 <> -1 -> (j < i)%nat).
Proof.
  intros sti H.
  specialize (H 0%nat 1%nat ("A:", -1) ("Q:", 0) eq_refl eq_refl eq_refl).
  simpl in H. specialize (H ltac:(discriminate)). lia.
Qed.

(** C3, as the code has it: for a schema delimiter whose encoded token
    subsequence does not occur in the output, and whose field key is not
    also the key of a delimiter that was found, the record built by the
    field loop maps the key to the empty string; the loop raises nothing,
    and without an allow-list this record is the one produced. *)
Theorem absent_field_is_empty tok normalize_key schema_tokens schema_return
    output delim :
  delim ∈ schema_tokens ->
  ~ occurs_in (encode tok delim) output ->
  (forall other, other ∈ schema_tokens ->
     find_index_of_subset output (encode tok other) <> -1 ->
     field_key normalize_key other <> field_key normalize_key delim) ->
  PyDict.getitem (schema_fields tok normalize_key schema_tokens output)
    (field_key normalize_key delim) = Some ""
  /\ (truthy_list schema_return = false ->
      schema_record tok normalize_key schema_tokens schema_return output
      = Ok (RDict (schema_fields tok normalize_key schema_tokens output))).
Proof.
  intros Hin Habsent Hkeys. split.
  - apply find_index_of_subset_absent in Habsent.
    assert ((delim, -1) ∈ schema_token_indices tok schema_tokens output) as Hp
      by (apply schema_token_indices_elem; simpl; by rewrite Habsent).
    apply list_elem_of_lookup_1 in Hp as [i Hi].
    unfold schema_fields.
    change (field_key normalize_key delim)
      with (field_key normalize_key (delim, -1).1).
    apply fill_fields_lookup with (j := i); [done | done |].
    intros j' [d' s'] _ Hj' Hk. simpl in Hk.
    apply list_elem_of_lookup_2, schema_token_indices_elem in Hj' as [Hd' Hs'].
    simpl in Hd', Hs'. unfold field_text. simpl.
    destruct (Z.eqb_spec s' (-1)) as [| Hfound]; [done |].
    destruct (Hkeys d' Hd'); [by rewrite <- Hs' | done].
  - intros Hnone. unfold schema_record, remove_fields.
    by destruct schema_return as [[|? ?]|].
Qed.

Lemma absent_field_is_empty_witness :
  PyDict.getitem
    (schema_fields char_tokenizer true ["Q:"; "A:"] (char_encode "Q:hello"))
    "A" = Some "".
Proof.
  refine (proj1 (absent_field_is_empty char_tokenizer true ["Q:"; "A:"] None
                   (char_encode "Q:hello") "A:" _ _ _)).
  - apply list_elem_of_In. simpl. tauto.
  - apply find_index_of_subset_sentinel; [discriminate | reflexivity].
  - intros other Hother Hfound.
    apply list_elem_of_In in Hother. simpl in Hother.
    destruct Hother as [<- | [<- | []]]; [discriminate |].
    by destruct Hfound.
Defined.

(** C3 as stated fails when two delimiters share a field key: with key
    normalisation, "Q:" and "Q-" both store under "Q"; in the text
    "Q:hello" the second does not occur, and the record maps "Q" to the
    text found for the first. *)
Lemma absent_field_counterexample :
  let output := char_encode "Q:hello" in
  let schema_tokens := ["Q:"; "Q-"] in
  ~ (forall delim, delim ∈ schema_tokens ->
       ~ occurs_in (char_encode delim) output ->
       exists d,
         schema_record char_tokenizer true schema_tokens None output
         = Ok (RDict d)
         /\ PyDict.getitem d (field_key true delim) = Some "").
Proof.
  intros output schema_tokens H.
  destruct (H "Q-") as (d & Hd & Hget).
  - apply list_elem_of_In. simpl. tauto.
  - apply find_index_of_subset_sentinel; [discriminate | reflexivity].
  - vm_compute in Hd. injection Hd as <-. discriminate Hget.
Qed.

(** ** Pruning by the allow-list *)

Lemma used_pop_live d k v :
  Some (k, v) ∈ d -> S (PyDict.used (PyDict.pop d k)) = PyDict.used d.
Proof.
  induction d as [|[[k' v']|] d IH]; intros Hin.
  - by apply elem_of_nil in Hin.
  - simpl. destruct (String.eqb k' k) eqn:Hk; [done |].
    simpl. f_equal. apply IH.
    apply elem_of_cons in Hin as [Heq | Hin]; [| done].
    injection Heq as <- <-. by rewrite String.eqb_refl in Hk.
  - simpl. apply IH. by apply elem_of_cons in Hin as [Heq | Hin].
Qed.

(** Once the dictionary has changed size, the iteration raises at the
    next request for a key. *)
Lemma prune_keys_stale todo : forall pos di_used allowed d,
  PyDict.used d <> di_used ->
  prune_keys todo pos di_used allowed d None = Raise RuntimeError.
Proof.
  induction todo as [|todo IH]; intros pos di_used allowed d Hne; simpl.
  - by destruct (Nat.eqb_spec (PyDict.used d) di_used).
  - destruct (d !! pos) as [[[key v]|]|]; [| by apply IH..].
    by destruct (Nat.eqb_spec (PyDict.used d) di_used).
Qed.

(** With an allow-list of several fields, a key outside the list among
    the remaining slots makes the loop raise: the key is popped while the
    key view is being iterated. *)
Lemma prune_keys_raises todo : forall pos allowed d key v,
  (pos + todo)%nat = length d ->
  (exists i, (pos <= i)%nat /\ d !! i = Some (Some (key, v))
             /\ str_in key allowed = false) ->
  prune_keys todo pos (PyDict.used d) allowed d None = Raise RuntimeError.
Proof.
  induction todo as [|todo IH]; intros pos allowed d key v Hlen
    (i & Hi & Hlook & Hout).
  - apply lookup_lt_Some in Hlook. lia.
  - simpl. destruct (d !! pos) as [[[key0 v0]|]|] eqn:Hpos.
    + rewrite Nat.eqb_refl. simpl.
      destruct (str_in key0 allowed) eqn:Hin0; simpl.
      * apply (IH (S pos) allowed d key v); [lia |].
        exists i. split; [| done].
        destruct (decide (i = pos)) as [-> |]; [| lia]. congruence.
      * apply prune_keys_stale.
        pose proof (used_pop_live d key0 v0
                      (list_elem_of_lookup_2 _ _ _ Hpos)). lia.
    + apply (IH (S pos) allowed d key v); [lia |].
      exists i. split; [| done].
      destruct (decide (i = pos)) as [-> |]; [| lia]. congruence.
    + apply lookup_ge_None in Hpos. lia.
Qed.

(** Lines 404-411 with an allow-list of two or more fields: whenever the
    record holds a field outside the list, a [RuntimeError] is raised
    instead of the field being dropped. *)
Lemma remove_fields_raises first second more d key v :
  Some (key, v) ∈ d ->
  str_in key (first :: second :: more) = false ->
  remove_fields (Some (first :: second :: more)) d = Raise RuntimeError.
Proof.
  intros Hin Hout. unfold remove_fields. simpl length. simpl rbind.
  apply list_elem_of_lookup_1 in Hin as [i Hi].
  rewrite (prune_keys_raises (length d) 0 _ d key v); [done | done |].
  exists i. split; [lia | done].
Qed.

(** With the variable rebound to a string, the first key outside the
    allow-list makes the loop raise: a string has no [pop]. *)
Lemma prune_keys_rebound_raises todo : forall pos allowed d s key v,
  (pos + todo)%nat = length d ->
  (exists i, (pos <= i)%nat /\ d !! i = Some (Some (key, v))
             /\ str_in key allowed = false) ->
  prune_keys todo pos (PyDict.used d) allowed d (Some s)
  = Raise AttributeError.
Proof.
  induction todo as [|todo IH]; intros pos allowed d s key v Hlen
    (i & Hi & Hlook & Hout).
  - apply lookup_lt_Some in Hlook. lia.
  - simpl. destruct (d !! pos) as [[[key0 v0]|]|] eqn:Hpos.
    + rewrite Nat.eqb_refl. simpl.
      destruct (str_in key0 allowed) eqn:Hin0; simpl; [| done].
      apply (IH (S pos) allowed d s key v); [lia |].
      exists i. split; [| done].
      destruct (decide (i = pos)) as [-> |]; [| lia]. congruence.
    + apply (IH (S pos) allowed d s key v); [lia |].
      exists i. split; [| done].
      destruct (decide (i = pos)) as [-> |]; [| lia]. congruence.
    + apply lookup_ge_None in Hpos. lia.
Qed.

(** Lines 404-411 with an allow-list of one field: whenever the record
    holds another field, the call raises, a [KeyError] when the
    allow-listed field is not in the record and an [AttributeError]
    otherwise. *)
Lemma remove_fields_single_raises only d key v :
  Some (key, v) ∈ d ->
  key <> only ->
  remove_fields (Some [only]) d
  = Raise match PyDict.getitem d only with
          | Some _ => AttributeError
          | None => KeyError
          end.
Proof.
  intros Hin Hne. unfold remove_fields. simpl length.
  destruct (PyDict.getitem d only) as [s|]; simpl; [| done].
  apply list_elem_of_lookup_1 in Hin as [i Hi].
  rewrite (prune_keys_rebound_raises (length d) 0 _ d s key v); [done | done |].
  exists i. split; [lia |]. split; [done |]. simpl.
  apply String.eqb_neq in Hne. by rewrite Hne.
Qed.

(** The loop leaves a dictionary alone when all its keys are in the
    allow-list. *)
Lemma prune_keys_all_allowed todo : forall pos allowed d rebound,
  (forall key v, Some (key, v) ∈ d -> str_in key allowed = true) ->
  prune_keys todo pos (PyDict.used d) allowed d rebound = Ok (d, rebound).
Proof.
  induction todo as [|todo IH]; intros pos allowed d rebound Hall; simpl.
  - by rewrite Nat.eqb_refl.
  - destruct (d !! pos) as [[[key0 v0]|]|] eqn:Hpos; [| by apply IH..].
    rewrite Nat.eqb_refl. simpl.
    rewrite (Hall key0 v0 (list_elem_of_lookup_2 _ _ _ Hpos)). simpl.
    by apply IH.
Qed.

(** So the pruning succeeds exactly when there is nothing to prune. *)
Lemma remove_fields_nothing_to_prune first second more d :
  (forall key v, Some (key, v) ∈ d ->
     str_in key (first :: second :: more) = true) ->
  remove_fields (Some (first :: second :: more)) d = Ok (RDict d).
Proof.
  intros Hall. unfold remove_fields. simpl length. simpl rbind.
  by rewrite prune_keys_all_allowed.
Qed.

(** C4: the pruning by the allow-list raises where it should drop.  The
    model is configured with the delimiters "Q:", "A:" and "Z:" and
    generates "Q:hello A:world".  With the allow-list ["Q"; "A"] the call
    ends in a [RuntimeError] (the field "Z" is popped from the dictionary
    while its keys are iterated); with the allow-list ["A"] it ends in an
    [AttributeError] (the record has been rebound to the string when the
    other fields are popped).  Only when no field is outside the list is
    the outcome the expected one. *)
Theorem allow_list_pruning_raises :
  let run schema_return :=
    fst (Gen.generate 1 char_tokenizer
           (replay_model (demo_config schema_return) [["Q:hello A:world"]])
           (demo_args true true None None) fresh_world) in
  run (Some ["Q"; "A"]) = Gen.Raised RuntimeError
  /\ run (Some ["A"]) = Gen.Raised AttributeError
  /\ run (Some ["Q"; "A"; "Z"])
     = Gen.Returned (Gen.VRecord
         (RDict [Some ("Z", ""); Some ("Q", "Q:hello"); Some ("A", "A:world")])).
Proof. repeat split; vm_compute; reflexivity. Qed.

(** ** The prompt check *)

(** C5: a non-empty prompt whose tokenized length reaches the model's
    maximum context length makes [generate] raise an [AssertionError];
    the world is left as it was (no sampling pass has run), whatever the
    number of rounds allowed to the loop. *)
Theorem long_prompt_aborts fuel tok mdl a w :
  Gen.prompt a <> "" ->
  max_context (config mdl) <= Z.of_nat (length (encode tok (Gen.prompt a))) ->
  Gen.generate fuel tok mdl a w = (Gen.Raised AssertionError, w).
Proof.
  intros Hprompt Hlen. unfold Gen.generate, Gen.prompt_fits, truthy_str.
  apply String.eqb_neq in Hprompt. rewrite Hprompt. simpl.
  by destruct (Z.ltb_spec (Z.of_nat (length (encode tok (Gen.prompt a))))
                 (max_context (config mdl))); [lia |].
Qed.

Lemma long_prompt_aborts_witness :
  let mdl := replay_model
               {| max_context := 5; line_by_line := None;
                  schema_tokens_attr := None; schema_return_attr := None |}
               [["some text"]] in
  let a :=
    {| Gen.n := 1; Gen.prompt := "hello"; Gen.prepend_bos := None;
       Gen.min_length := None; Gen.max_length := 256;
       Gen.return_as_list := true; Gen.seed := Some 42;
       Gen.pad_token_id := None; Gen.schema := false;
       Gen.normalize_key := true; Gen.use_cache := true; Gen.lstrip := true;
       Gen.nonempty_output := true; Gen.skip_special_tokens := true |} in
  Gen.generate 7 char_tokenizer mdl a fresh_world
  = (Gen.Raised AssertionError, fresh_world).
Proof.
  intros mdl a.
  exact (long_prompt_aborts 7 char_tokenizer mdl a fresh_world
           ltac:(discriminate) ltac:(vm_compute; discriminate)).
Defined.

(** ** One sampling pass in schema mode *)

Lemma seed_if_given_calls a w :
  Gen.model_calls (Gen.seed_if_given a w) = Gen.model_calls w.
Proof.
  unfold Gen.seed_if_given. destruct (Gen.seed a) as [s|]; [| done].
  by destruct (negb (s =? 0)).
Qed.

Lemma reset_if_seeded_calls a w :
  Gen.model_calls (Gen.reset_if_seeded a w) = Gen.model_calls w.
Proof. unfold Gen.reset_if_seeded. by destruct (truthy_int (Gen.seed a)). Qed.

(** Without an allow-list every output yields its dictionary. *)
Lemma schema_records_unpruned tok normalize_key schema_tokens schema_return
    outputs :
  truthy_list schema_return = false ->
  result_mapM (schema_record tok normalize_key schema_tokens schema_return)
    outputs
  = Ok (map (fun output =>
               RDict (schema_fields tok normalize_key schema_tokens output))
          outputs).
Proof.
  intros Hnone. induction outputs as [|output outputs IH]; simpl; [done |].
  rewrite IH. unfold schema_record, remove_fields.
  by destruct schema_return as [[|? ?]|].
Qed.

(** C10: in schema mode a call of [generate] that passes the prompt check
    ends after exactly one sampling pass, whatever the records hold: the
    loop of [S fuel] rounds is never cut off, and the model has been
    called once.  With the delimiters configured, no allow-list and a
    batch that is not empty, the call ends by returning or printing. *)
Theorem schema_mode_samples_once fuel tok mdl a w :
  Gen.schema a = true ->
  Gen.prompt_fits tok mdl a = true ->
  exists out w',
    Gen.generate (S fuel) tok mdl a w = (out, w')
    /\ out <> Gen.OutOfFuel
    /\ Gen.model_calls w' = S (Gen.model_calls w)
    /\ (is_Some (schema_tokens_attr (config mdl)) ->
        truthy_list (schema_return_attr (config mdl)) = false ->
        model_generate mdl (Gen.make_request tok mdl a)
          (Gen.rng (Gen.seed_if_given a w)) <> [] ->
        exists v, out = Gen.Returned v \/ out = Gen.Printed v).
Proof.
  intros Hschema Hfits. unfold Gen.generate. rewrite Hfits.
  simpl. rewrite Hschema. unfold Gen.schema_branch.
  set (req := Gen.make_request tok mdl a).
  set (w0 := Gen.seed_if_given a w).
  set (outputs := model_generate mdl req (Gen.rng w0)).
  set (w1 := {| Gen.rng := draw (Gen.rng w0);
                Gen.model_calls := S (Gen.model_calls w0) |}).
  assert (Gen.model_calls w1 = S (Gen.model_calls w)) as Hcalls
    by (unfold w1, w0; simpl; by rewrite seed_if_given_calls).
  destruct (schema_tokens_attr (config mdl)) as [schema_tokens|] eqn:Htokens.
  - destruct (result_mapM _ outputs) as [gen_texts | e] eqn:Hrecords.
    + destruct (negb (Gen.return_as_list a)).
      { eexists _, _. split; [done |]. rewrite reset_if_seeded_calls.
        repeat split; [done | done | eauto]. }
      destruct (1 <? Gen.n a).
      { eexists _, _. split; [done |]. rewrite reset_if_seeded_calls.
        repeat split; [done | done | eauto]. }
      destruct gen_texts as [|gen_text gen_texts].
      * eexists _, _. split; [done |]. rewrite reset_if_seeded_calls.
        repeat split; [done | done |]. intros _ Hnone Hbatch.
        rewrite schema_records_unpruned in Hrecords by done.
        injection Hrecords as Hrecords. by destruct outputs.
      * eexists _, _. split; [done |]. rewrite reset_if_seeded_calls.
        repeat split; [done | done | eauto].
    + eexists _, _. split; [done |]. repeat split; [done | done |].
      intros _ Hnone _. by rewrite schema_records_unpruned in Hrecords.
  - eexists _, _. split; [done |]. repeat split; [done | done |].
    by intros [? ?].
Qed.

(** A call whose only record has nothing but empty fields: one sampling
    pass, and the record is returned. *)
Lemma schema_mode_samples_once_witness :
  exists out w',
    Gen.generate 1 char_tokenizer
      (replay_model (demo_config None) [["no delimiter here"]])
      (demo_args true true None None) fresh_world = (out, w')
    /\ out <> Gen.OutOfFuel
    /\ Gen.model_calls w' = 1%nat
    /\ out = Gen.Returned (Gen.VRecord
               (RDict [Some ("Q", ""); Some ("A", ""); Some ("Z", "")])).
Proof.
  destruct (schema_mode_samples_once 0 char_tokenizer
              (replay_model (demo_config None) [["no delimiter here"]])
              (demo_args true true None None) fresh_world eq_refl eq_refl)
    as (out & w' & Hrun & Hfuel & Hcalls & _).
  exists out, w'. repeat split; [done | done | done |].
  vm_compute in Hrun. by injection Hrun as <- _.
Defined.

(** ** The trainer's precision *)

(** Whenever a GPU is in use and DeepSpeed is requested, [fp16] is set
    and the [precision] handed to the trainer is 32. *)
Lemma precision_under_deepspeed e a :
  Train.is_gpu_used e a = true -> Train.use_deepspeed a = true ->
  Train.resolved_fp16 e a = true
  /\ Train.train_params e a !! "precision" = Some (PInt 32).
Proof.
  intros Hgpu Hds.
  assert (Train.resolved_fp16 e a = true) as Hfp.
  { unfold Train.resolved_fp16. rewrite Hgpu, Hds. simpl.
    by destruct (Train.fp16 a). }
  split; [done |]. unfold Train.train_params. rewrite Hfp, Hgpu.
  repeat (rewrite lookup_insert_ne by done).
  destruct (0 <? Train.tpu_cores a), (Train.benchmark a); simpl;
    repeat match goal with
           | |- context [if ?b then _ else _] => destruct b
           end;
    repeat (rewrite lookup_insert_ne by done); by rewrite lookup_insert_eq.
Qed.

(** C8: the precision the trainer gets when DeepSpeed is requested on a
    GPU without [fp16].  The code sets [fp16] to true and then stores
    [precision = 32] (the expression [16 if fp16 else 32] is commented
    out), so the run configuration asks for full precision, not for the
    16-bit mixed precision the log message announces. *)
Theorem deepspeed_precision_is_32 :
  let e := {| Train.cuda_is_available := true;
              Train.platform_system := "Linux" |} in
  let a := {| Train.fp16 := false; Train.fp16_opt_level := "O1";
              Train.n_gpu := -1; Train.tpu_cores := 0;
              Train.max_grad_norm := 0.5%float;
              Train.gradient_accumulation_steps := 1;
              Train.num_steps := 5000; Train.loggers := [];
              Train.benchmark := true;
              Train.progress_bar_refresh_rate := 20;
              Train.use_deepspeed := true |} in
  Train.resolved_fp16 e a = true
  /\ Train.train_params e a !! "plugins" = Some (PObj "DeepSpeedPlugin")
  /\ Train.train_params e a !! "precision" = Some (PInt 32)
  /\ Train.train_params e a !! "precision" <> Some (PInt 16).
Proof. repeat split; vm_compute; done. Qed.

(** ** The seed *)

Lemma reset_if_seeded_rng a w :
  truthy_int (Gen.seed a) = true ->
  Gen.rng (Gen.reset_if_seeded a w) = {| seeded_by := None; draws := 0 |}.
Proof. intros H. unfold Gen.reset_if_seeded. by rewrite H. Qed.

(** A run that raised or was cut off did not return or print. *)
Ltac not_an_end Hrun Hends :=
  injection Hrun as <- _; by destruct Hends as [? [? | ?]].

(** A run that ended through [reset_if_seeded] left a fresh state. *)
Ltac ended_reset Hrun :=
  injection Hrun as _ <-; by apply reset_if_seeded_rng.

Lemma generate_loop_resets fuel tok mdl a req : forall w out w',
  truthy_int (Gen.seed a) = true ->
  Gen.generate_loop fuel tok mdl a req w = (out, w') ->
  (exists v, out = Gen.Returned v \/ out = Gen.Printed v) ->
  Gen.rng w' = {| seeded_by := None; draws := 0 |}.
Proof.
  induction fuel as [|fuel IH]; intros w out w' Hseed Hrun Hends.
  - not_an_end Hrun Hends.
  - simpl in Hrun. destruct (Gen.schema a).
    + unfold Gen.schema_branch in Hrun.
      destruct (schema_tokens_attr (config mdl)); [| not_an_end Hrun Hends].
      destruct (result_mapM _ _) as [gen_texts | e]; [| not_an_end Hrun Hends].
      destruct (negb (Gen.return_as_list a)); [ended_reset Hrun |].
      destruct (1 <? Gen.n a); [ended_reset Hrun |].
      destruct gen_texts; ended_reset Hrun.
    + destruct (Gen.clean_texts _ _ _) as [|first rest].
      * by apply (IH _ _ _ Hseed Hrun).
      * unfold Gen.plain_finish in Hrun.
        destruct (negb (Gen.return_as_list a));
          [destruct (1 <? Gen.n a) |]; ended_reset Hrun.
Qed.

(** A seed other than 0 is applied before the first sampling pass, and a
    call that returns or prints leaves a fresh random state behind. *)
Lemma nonzero_seed_applied_and_reset fuel tok mdl a w s out w' :
  Gen.seed a = Some s -> s <> 0 ->
  Gen.generate fuel tok mdl a w = (out, w') ->
  (exists v, out = Gen.Returned v \/ out = Gen.Printed v) ->
  Gen.generate fuel tok mdl a w
  = Gen.generate_loop fuel tok mdl a (Gen.make_request tok mdl a)
      {| Gen.rng := {| seeded_by := Some s; draws := 0 |};
         Gen.model_calls := Gen.model_calls w |}
  /\ Gen.rng w' = {| seeded_by := None; draws := 0 |}.
Proof.
  intros Hseed Hs Hrun Hends. unfold Gen.generate in *.
  destruct (Gen.prompt_fits tok mdl a); [| not_an_end Hrun Hends].
  assert (truthy_int (Gen.seed a) = true) as Htruthy.
  { rewrite Hseed. simpl. by destruct (Z.eqb_spec s 0). }
  split; [| by eapply generate_loop_resets].
  unfold Gen.seed_if_given. rewrite Hseed.
  by destruct (Z.eqb_spec s 0).
Qed.

(** C9: the seed 0 is not applied.  On a model whose first pass after a
    seeding yields "first" and whose second yields "second", two calls
    with [seed=0] sample from whatever state they find and give "first",
    then "second"; the random state is neither seeded before the pass nor
    reset after it.  With [seed=42] both calls give "first" and leave a
    fresh state. *)
Theorem seed_zero_is_ignored :
  let mdl := replay_model (demo_config None) [["first"]; ["second"]] in
  let run seed w :=
    Gen.generate 1 char_tokenizer mdl (demo_args false true seed None) w in
  let after k :=
    {| Gen.rng := {| seeded_by := None; draws := k |};
       Gen.model_calls := k |} in
  Gen.seed_if_given (demo_args false true (Some 0) None) fresh_world
  = fresh_world
  /\ run (Some 0) fresh_world = (Gen.Returned (Gen.VTexts ["first"]), after 1%nat)
  /\ run (Some 0) (after 1%nat)
     = (Gen.Returned (Gen.VTexts ["second"]), after 2%nat)
  /\ fst (run (Some 42) fresh_world) = Gen.Returned (Gen.VTexts ["first"])
  /\ fst (run (Some 42) (after 1%nat)) = Gen.Returned (Gen.VTexts ["first"])
  /\ Gen.rng (snd (run (Some 42) fresh_world))
     = {| seeded_by := None; draws := 0 |}.
Proof. repeat split; vm_compute; reflexivity. Qed.

(** ** The decay of cross-training *)

Lemma float_pow2_small :
  map float_pow2 [0; 1; 2; 10]%nat = [1; 2; 4; 1024]%float.
Proof. vm_compute. reflexivity. Qed.


(** Below [2 ^ 53] an integer is a double as it is. *)
Lemma round_to_53_bits_small s :
  Z.abs s < 2 ^ 53 -> round_to_53_bits s = s.
Proof.
  intros Hs. unfold round_to_53_bits.
  by destruct (Z.ltb_spec (Z.abs s) (2 ^ 53)); [| lia].
Qed.

(** Rounding moves an integer by less than itself, and keeps it at or
    above every power of two that it has reached. *)
Lemma round_to_53_bits_bounds s :
  Z.abs (round_to_53_bits s) <= 2 * Z.abs s
  /\ forall k, 53 <= k -> 2 ^ k <= Z.abs s ->
       2 ^ k <= Z.abs (round_to_53_bits s).
Proof.
  unfold round_to_53_bits.
  destruct (Z.ltb_spec (Z.abs s) (2 ^ 53)) as [Hsmall | Hbig].
  - split; [lia |]. intros k Hk Hle.
    assert (2 ^ 53 <= 2 ^ k) by (apply Z.pow_le_mono_r; lia). lia.
  - set (a := Z.abs s) in *. set (e := Z.log2 a).
    assert (0 < a) as Ha by lia.
    destruct (Z.log2_spec a Ha) as [Hlow Hhigh]. fold e in Hlow, Hhigh.
    assert (53 <= e) as He by (apply Z.log2_le_pow2; [done | lia]).
    set (ulp := 2 ^ (e - 52)).
    assert (0 < ulp) as Hulp by (apply Z.pow_pos_nonneg; lia).
    assert (2 ^ e = 2 ^ 52 * ulp) as Hpow.
    { unfold ulp. rewrite <- Z.pow_add_r by lia. f_equal. lia. }
    pose proof (Z.div_mod a ulp ltac:(lia)) as Hdiv.
    pose proof (Z.mod_pos_bound a ulp Hulp) as Hmod.
    set (q := a / ulp) in *. set (r := a mod ulp) in *.
    assert (2 ^ 52 <= q) as Hq.
    { unfold q. apply Z.div_le_lower_bound; [done |]. lia. }
    set (q' := if 2 * r <? ulp then q
               else if ulp <? 2 * r then q + 1
               else if Z.even q then q else q + 1).
    assert (q <= q' <= q + 1) as Hq'.
    { unfold q'. destruct (2 * r <? ulp); [lia |].
      destruct (ulp <? 2 * r); [lia |]. destruct (Z.even q); lia. }
    assert (Z.abs (Z.sgn s * (q' * ulp)) = q' * ulp) as ->.
    { assert (0 <= q' * ulp) by nia.
      assert (Z.sgn s = 1 \/ Z.sgn s = -1) as [-> | ->] by lia; lia. }
    split.
    + assert (ulp <= a) by nia. nia.
    + intros k Hk Hle.
      assert (k <= e) as Hke by (apply Z.log2_le_pow2; [done | lia]).
      assert (2 ^ k <= 2 ^ e) by (apply Z.pow_le_mono_r; lia). nia.
Qed.

(** A budget below [2 ^ 53] in absolute value is divided without
    rounding. *)
Lemma int_true_div_exact s x :
  Z.abs s < 2 ^ 53 -> int_true_div s x = Ok (Z.quot s (2 ^ Z.of_nat x)).
Proof.
  intros Hs. unfold int_true_div. rewrite round_to_53_bits_small by done.
  destruct (Z.leb_spec (2 ^ (1024 + Z.of_nat x)) (Z.abs s)) as [Hbig |];
    [exfalso | done].
  assert (2 ^ 53 <= 2 ^ (1024 + Z.of_nat x)) by (apply Z.pow_le_mono_r; lia).
  lia.
Qed.

Lemma result_mapM_ok {A B : Type} (f : A -> result B) (g : A -> B) l :
  (forall x, f x = Ok (g x)) -> result_mapM f l = Ok (map g l).
Proof.
  intros Hf. induction l as [|x l IH]; [done |].
  simpl. by rewrite Hf, IH.
Qed.

Lemma cross_train_num_steps_exact s datasets :
  Z.abs s < 2 ^ 53 ->
  cross_train_num_steps (Scalar s) datasets
  = Ok (map (fun x => Z.quot s (2 ^ Z.of_nat x)) (seq 0 datasets)).
Proof.
  intros Hs. apply result_mapM_ok. intros x. by apply int_true_div_exact.
Qed.



(** ** The retry loop of plain text mode *)

(** With [nonempty_output], the cleanup keeps the decoded (and, with
    [lstrip], left-stripped) texts that are strictly longer than
    [min_length], where a missing [min_length] counts as 0. *)
Lemma clean_texts_filter tok a outputs :
  Gen.nonempty_output a = true ->
  Gen.clean_texts tok a outputs
  = List.filter (fun x => default 0 (Gen.min_length a) <? len x)
      (map (fun output =>
              (if Gen.lstrip a then lstrip_spaces else id)
                (decode tok output (Gen.skip_special_tokens a)))
         outputs).
Proof.
  intros Hnonempty. unfold Gen.clean_texts. rewrite Hnonempty.
  assert (forall l : list string,
            match Gen.min_length a with
            | Some m =>
                if negb (m =? 0) then List.filter (fun x => m <? len x) l
                else List.filter (fun x => 0 <? len x) l
            | None => List.filter (fun x => 0 <? len x) l
            end
            = List.filter (fun x => default 0 (Gen.min_length a) <? len x) l)
    as ->.
  { intros l. destruct (Gen.min_length a) as [m|]; [| done]. simpl.
    by destruct (Z.eqb_spec m 0) as [-> |]. }
  destruct (Gen.lstrip a); [by rewrite List.map_map |].
  f_equal.
Qed.

Section PlainLoop.

Variables (tok : tokenizer) (mdl : model) (a : Gen.args).
Variable req : sampling_request.
Hypothesis Hplain : Gen.schema a = false.

(** The world after [k] sampling passes. *)
Let after (k : nat) (w : Gen.world) : Gen.world :=
  {| Gen.rng := Nat.iter k draw (Gen.rng w);
     Gen.model_calls := (k + Gen.model_calls w)%nat |}.

(** The cleaned batch of the [j]-th pass. *)
Let cleaned (j : nat) (w : Gen.world) : list string :=
  Gen.clean_texts tok a (model_generate mdl req (Nat.iter j draw (Gen.rng w))).

(** A run that ends has sampled again after every empty batch and ends
    with the first batch that is not empty. *)
Lemma plain_loop_ends fuel : forall w out w',
  Gen.generate_loop fuel tok mdl a req w = (out, w') ->
  out <> Gen.OutOfFuel ->
  exists k first rest,
    (k < fuel)%nat
    /\ (forall j, (j < k)%nat -> cleaned j w = [])
    /\ cleaned k w = first :: rest
    /\ (out, w') = Gen.plain_finish a first rest (after (S k) w).
Proof.
  induction fuel as [|fuel IH]; intros w out w' Hrun Hends.
  - by injection Hrun as <- _.
  - simpl in Hrun. rewrite Hplain in Hrun.
    destruct (Gen.clean_texts tok a (model_generate mdl req (Gen.rng w)))
      as [|first rest] eqn:Hbatch.
    + destruct (IH _ _ _ Hrun Hends) as (k & first & rest & Hk & He & Hf & Hout).
      exists (S k), first, rest. split; [lia |]. split; [| split].
      * intros [|j] Hj; [done |]. unfold cleaned. rewrite Nat.iter_succ_r.
        apply He. lia.
      * unfold cleaned. by rewrite Nat.iter_succ_r.
      * rewrite Hout. f_equal. unfold after. simpl Gen.rng. simpl Gen.model_calls.
        rewrite <- !Nat.iter_succ_r. f_equal. lia.
    + exists 0%nat, first, rest. split; [lia |]. split; [intros j; lia |].
      split; [done |]. by rewrite <- Hrun.
Qed.

(** One round of the loop in plain text mode. *)
Lemma plain_loop_round fuel w :
  Gen.generate_loop (S fuel) tok mdl a req w
  = match cleaned 0 w with
    | [] => Gen.generate_loop fuel tok mdl a req (after 1 w)
    | first :: rest => Gen.plain_finish a first rest (after 1 w)
    end.
Proof. simpl. by rewrite Hplain. Qed.

(** Conversely, the loop ends as soon as a batch is not empty: [k] empty
    batches cost [k] more passes. *)
Lemma plain_loop_retries k : forall w first rest extra,
  (forall j, (j < k)%nat -> cleaned j w = []) ->
  cleaned k w = first :: rest ->
  Gen.generate_loop (S (k + extra)) tok mdl a req w
  = Gen.plain_finish a first rest (after (S k) w).
Proof.
  induction k as [|k IH]; intros w first rest extra Hempty Hbatch.
  - rewrite plain_loop_round. by rewrite Hbatch.
  - rewrite plain_loop_round, (Hempty 0%nat) by lia.
    change (S k + extra)%nat with (S (k + extra)).
    rewrite (IH _ first rest).
    + f_equal. unfold after. simpl Gen.rng. simpl Gen.model_calls.
      rewrite <- !Nat.iter_succ_r. f_equal. lia.
    + intros j Hj. specialize (Hempty (S j) ltac:(lia)).
      unfold cleaned in *. by rewrite Nat.iter_succ_r in Hempty.
    + unfold cleaned in *. by rewrite Nat.iter_succ_r in Hbatch.
Qed.

(** While the batches come out empty the loop goes on: after [k] empty
    batches it has made [k] sampling passes and has not ended. *)
Lemma plain_loop_goes_on k : forall w,
  (forall j, (j < k)%nat -> cleaned j w = []) ->
  Gen.generate_loop k tok mdl a req w = (Gen.OutOfFuel, after k w).
Proof.
  induction k as [|k IH]; intros w Hempty.
  - by destruct w.
  - rewrite plain_loop_round, (Hempty 0%nat) by lia.
    rewrite IH.
    + f_equal. unfold after. simpl Gen.rng. simpl Gen.model_calls.
      rewrite <- !Nat.iter_succ_r. f_equal. lia.
    + intros j Hj. specialize (Hempty (S j) ltac:(lia)).
      unfold cleaned in *. by rewrite Nat.iter_succ_r in Hempty.
Qed.

End PlainLoop.

(** The loop in plain text mode with [nonempty_output]: a run that ends
    has made one more sampling pass after each batch that the filter left
    empty, and ends with the first batch that is not empty. *)
Lemma plain_loop_batch fuel tok mdl a req w out w' :
  Gen.schema a = false ->
  Gen.nonempty_output a = true ->
  Gen.generate_loop fuel tok mdl a req w = (out, w') ->
  out <> Gen.OutOfFuel ->
  let batch (j : nat) :=
    List.filter (fun x => default 0 (Gen.min_length a) <? len x)
      (map (fun output =>
              (if Gen.lstrip a then lstrip_spaces else id)
                (decode tok output (Gen.skip_special_tokens a)))
         (model_generate mdl req (Nat.iter j draw (Gen.rng w)))) in
  exists k,
    (k < fuel)%nat
    /\ (forall j, (j < k)%nat -> batch j = [])
    /\ batch k <> []
    /\ Gen.model_calls w' = (S k + Gen.model_calls w)%nat
    /\ out = (if Gen.return_as_list a
              then Gen.Returned (Gen.VTexts (batch k))
              else
                let shown :=
                  if truthy_str (Gen.prompt a)
                  then map (bold_prompt (Gen.prompt a)) (batch k)
                  else batch k in
                Gen.Printed
                  (Gen.VTexts (if 1 <? Gen.n a then shown else take 1 shown)))
    /\ forall extra,
         Gen.generate_loop (S (k + extra)) tok mdl a req w = (out, w').
Proof.
  intros Hplain Hnonempty Hrun Hends batch.
  destruct (plain_loop_ends tok mdl a req Hplain fuel w out w' Hrun Hends)
    as (k & first & rest & Hk & Hempty & Hbatch & Hout).
  assert (forall j,
            Gen.clean_texts tok a
              (model_generate mdl req (Nat.iter j draw (Gen.rng w)))
            = batch j) as Hclean
    by (intros j; by apply clean_texts_filter).
  exists k. split; [done |]. split; [| split; [| split; [| split]]].
  - intros j Hj. rewrite <- Hclean. by apply Hempty.
  - by rewrite <- Hclean, Hbatch.
  - unfold Gen.plain_finish in Hout. rewrite <- Hbatch, Hclean in Hout.
    destruct (negb (Gen.return_as_list a)); [destruct (1 <? Gen.n a) |];
      injection Hout as _ ->; by rewrite reset_if_seeded_calls.
  - unfold Gen.plain_finish in Hout. rewrite <- Hbatch, Hclean in Hout.
    destruct (Gen.return_as_list a); simpl in Hout.
    + by injection Hout as -> _.
    + destruct (1 <? Gen.n a); by injection Hout as -> _.
  - intros extra. rewrite Hout.
    by apply plain_loop_retries.
Qed.

(** C6, as the code has it: in plain text mode with [nonempty_output], in
    a call of [generate] that passes the prompt check, the batch of a
    sampling pass is the decoded (with [lstrip], left-stripped) texts
    whose length is strictly greater than [min_length] (greater than 0
    without a minimum).  Whenever that leaves the batch empty the loop
    body is run again with a new sampling pass: after [k] empty batches
    the loop has made [k] passes and has not ended, and it ends with the
    first batch that is not empty, after [k + 1] passes, whatever further
    rounds it is allowed.  That batch is returned; when printing, it is
    printed with the prompt in bold, all of it for [n > 1] and its first
    text otherwise.  Conversely every call that ends has ended so. *)
Theorem plain_batch_filtered fuel tok mdl a w :
  Gen.schema a = false ->
  Gen.nonempty_output a = true ->
  Gen.prompt_fits tok mdl a = true ->
  let batch (j : nat) :=
    List.filter (fun x => default 0 (Gen.min_length a) <? len x)
      (map (fun output =>
              (if Gen.lstrip a then lstrip_spaces else id)
                (decode tok output (Gen.skip_special_tokens a)))
         (model_generate mdl (Gen.make_request tok mdl a)
            (Nat.iter j draw (Gen.rng (Gen.seed_if_given a w))))) in
  let finish (k : nat) :=
    if Gen.return_as_list a
    then Gen.Returned (Gen.VTexts (batch k))
    else
      let shown :=
        if truthy_str (Gen.prompt a)
        then map (bold_prompt (Gen.prompt a)) (batch k)
        else batch k in
      Gen.Printed
        (Gen.VTexts (if 1 <? Gen.n a then shown else take 1 shown)) in
  (forall k, (forall j, (j < k)%nat -> batch j = []) ->
     (exists wk,
        Gen.generate k tok mdl a w = (Gen.OutOfFuel, wk)
        /\ Gen.model_calls wk = (k + Gen.model_calls w)%nat)
     /\ (batch k <> [] ->
         forall extra, exists w',
           Gen.generate (S (k + extra)) tok mdl a w = (finish k, w')
           /\ Gen.model_calls w' = (S k + Gen.model_calls w)%nat))
  /\ (forall out w',
        Gen.generate fuel tok mdl a w = (out, w') ->
        out <> Gen.OutOfFuel ->
        exists k,
          (k < fuel)%nat
          /\ (forall j, (j < k)%nat -> batch j = [])
          /\ batch k <> []
          /\ Gen.model_calls w' = (S k + Gen.model_calls w)%nat
          /\ out = finish k).
Proof.
  intros Hplain Hnonempty Hfits batch finish.
  assert (forall j,
            Gen.clean_texts tok a
              (model_generate mdl (Gen.make_request tok mdl a)
                 (Nat.iter j draw (Gen.rng (Gen.seed_if_given a w))))
            = batch j) as Hclean
    by (intros j; by apply clean_texts_filter).
  unfold Gen.generate. rewrite Hfits. split.
  - intros k Hempty. split.
    + eexists. split.
      * apply plain_loop_goes_on; [done |].
        intros j Hj. rewrite Hclean. by apply Hempty.
      * simpl. by rewrite seed_if_given_calls.
    + intros Hne extra.
      destruct (batch k) as [|first rest] eqn:Hbatch; [done |].
      rewrite (plain_loop_retries tok mdl a _ Hplain k _ first rest extra);
        [| intros j Hj; rewrite Hclean; by apply Hempty
         | by rewrite Hclean].
      unfold Gen.plain_finish, finish. rewrite Hbatch.
      destruct (Gen.return_as_list a); simpl negb; cbv iota;
        [| destruct (1 <? Gen.n a)];
        (eexists; split; [reflexivity |]);
        by rewrite reset_if_seeded_calls, <- (seed_if_given_calls a w).
  - intros out w' Hrun Hends.
    destruct (plain_loop_batch fuel tok mdl a (Gen.make_request tok mdl a)
                (Gen.seed_if_given a w) out w' Hplain Hnonempty Hrun Hends)
      as (k & Hk & Hempty & Hbatch & Hcalls & Hout & _).
    exists k. rewrite seed_if_given_calls in Hcalls. by repeat split.
Qed.

(** Two batches are filtered away before "abcd" gets through, on the
    third sampling pass. *)
Lemma plain_batch_filtered_witness :
  let mdl := replay_model (demo_config None)
               [["  ab"]; ["abc"; " "]; ["abc"; " abcd"]] in
  let a := demo_args false true None (Some 3) in
  exists w',
    Gen.generate 5 char_tokenizer mdl a fresh_world
    = (Gen.Returned (Gen.VTexts ["abcd"]), w')
    /\ Gen.model_calls w' = 3%nat.
Proof.
  intros mdl a.
  destruct (plain_batch_filtered 5 char_tokenizer mdl a fresh_world
              eq_refl eq_refl eq_refl) as [Hretry _].
  destruct (Hretry 2%nat) as [_ Hends].
  { intros [|[|j]] Hj; [reflexivity | reflexivity | lia]. }
  destruct (Hends ltac:(discriminate) 2%nat) as (w' & Hrun & Hcalls).
  exists w'. split; [exact Hrun | exact Hcalls].
Defined.

(** C6 as stated fails at the boundary: with [min_length=3] the text
    "abc" is not shorter than the minimum, and yet it is removed; the
    batch returned is not the decoded batch without the texts shorter
    than 3. *)
Lemma plain_batch_counterexample :
  let mdl := replay_model (demo_config None) [["abc"; "abcd"]] in
  let a := demo_args false true None (Some 3) in
  let req := Gen.make_request char_tokenizer mdl a in
  let decoded :=
    map (fun output => char_decode output true)
      (model_generate mdl req (Gen.rng fresh_world)) in
  decoded = ["abc"; "abcd"]
  /\ fst (Gen.generate 1 char_tokenizer mdl a fresh_world)
     = Gen.Returned (Gen.VTexts ["abcd"])
  /\ fst (Gen.generate 1 char_tokenizer mdl a fresh_world)
     <> Gen.Returned
          (Gen.VTexts (List.filter (fun x => negb (len x <? 3)) decoded)).
Proof. repeat split; vm_compute; done. Qed.

(** * Further properties *)

(** ** The fields of a record *)

Lemma keys_elem d key :
  key ∈ PyDict.keys d <-> exists v, Some (key, v) ∈ d.
Proof.
  unfold PyDict.keys. induction d as [|[[k v]|] d IH]; simpl.
  - split; [by intros ?%elem_of_nil | by intros [? ?%elem_of_nil]].
  - rewrite elem_of_cons, IH. split.
    + intros [-> | [v' Hv']]; [exists v | exists v'];
        apply elem_of_cons; [by left | by right].
    + intros [v' [Heq | Hin]%elem_of_cons]; [left; congruence | right; eauto].
  - rewrite IH. split; intros [v' Hv']; exists v'.
    + apply elem_of_cons. by right.
    + by apply elem_of_cons in Hv' as [? | ?].
Qed.

Lemma keys_setitem_in d k v :
  k ∈ PyDict.keys d -> PyDict.keys (PyDict.setitem d k v) = PyDict.keys d.
Proof.
  unfold PyDict.keys. induction d as [|[[k' v']|] d IH]; simpl; intros Hin.
  - by apply elem_of_nil in Hin.
  - destruct (String.eqb_spec k' k) as [-> | Hne]; simpl; [done |].
    f_equal. apply IH. by apply elem_of_cons in Hin as [-> | Hin].
  - by apply IH.
Qed.

Lemma keys_setitem_notin d k v :
  k ∉ PyDict.keys d ->
  PyDict.keys (PyDict.setitem d k v) = PyDict.keys d ++ [k].
Proof.
  unfold PyDict.keys. induction d as [|[[k' v']|] d IH]; simpl; intros Hout.
  - done.
  - apply not_elem_of_cons in Hout as [Hne Hout].
    destruct (String.eqb_spec k' k) as [-> | _]; [done |]. simpl.
    f_equal. by apply IH.
  - by apply IH.
Qed.

Lemma keys_setitem_nodup d k v :
  NoDup (PyDict.keys d) -> NoDup (PyDict.keys (PyDict.setitem d k v)).
Proof.
  intros Hd. destruct (decide (k ∈ PyDict.keys d)) as [Hin | Hout].
  - by rewrite keys_setitem_in.
  - rewrite keys_setitem_notin by done. apply NoDup_app.
    split; [done |]. split; [| apply NoDup_singleton].
    intros x Hx ->%list_elem_of_singleton. done.
Qed.

Lemma keys_setitem_elem d k v x :
  x ∈ PyDict.keys (PyDict.setitem d k v) <-> x ∈ PyDict.keys d \/ x = k.
Proof.
  destruct (decide (k ∈ PyDict.keys d)) as [Hin | Hout].
  - rewrite keys_setitem_in by done. split; [by left | by intros [? | ->]].
  - rewrite keys_setitem_notin by done. rewrite elem_of_app.
    by rewrite list_elem_of_singleton.
Qed.

Lemma fill_fields_keys tok normalize_key output sti todo : forall i d,
  NoDup (PyDict.keys d) ->
  NoDup (PyDict.keys (fill_fields tok normalize_key output sti i todo d))
  /\ forall x,
       x ∈ PyDict.keys (fill_fields tok normalize_key output sti i todo d)
       <-> x ∈ PyDict.keys d
           \/ exists p, p ∈ todo /\ field_key normalize_key p.1 = x.
Proof.
  induction todo as [|p todo IH]; intros i d Hd; simpl.
  - split; [done |]. intros x. split; [by left |].
    by intros [? | (p & ?%elem_of_nil & _)].
  - destruct (IH (S i) _ (keys_setitem_nodup d (field_key normalize_key p.1)
                            (field_text tok output sti i p) Hd)) as [Hnd Hel].
    split; [done |]. intros x. rewrite Hel, keys_setitem_elem. split.
    + intros [[Hx | ->] | (q & Hq & Hk)].
      * by left.
      * right. exists p. split; [apply elem_of_cons; by left | done].
      * right. exists q. split; [apply elem_of_cons; by right | done].
    + intros [Hx | (q & [-> | Hq]%elem_of_cons & Hk)].
      * by left; left.
      * by left; right.
      * right. by exists q.
Qed.

(** X1: the record built by the field loop has one field for every
    configured delimiter, found or not, and nothing else: its keys are
    the field keys of the configured delimiters, each of them once. *)
Theorem schema_fields_keys tok normalize_key schema_tokens output :
  let gen_text_dict := schema_fields tok normalize_key schema_tokens output in
  NoDup (PyDict.keys gen_text_dict)
  /\ forall key,
       key ∈ PyDict.keys gen_text_dict
       <-> exists delim,
             delim ∈ schema_tokens /\ field_key normalize_key delim = key.
Proof.
  intros gen_text_dict. unfold gen_text_dict, schema_fields.
  destruct (fill_fields_keys tok normalize_key output
              (schema_token_indices tok schema_tokens output)
              (schema_token_indices tok schema_tokens output) 0 PyDict.empty)
    as [Hnd Hel]; [apply NoDup_nil_2 |].
  split; [done |]. intros key. rewrite Hel. split.
  - intros [Hin | (p & Hp & Hk)]; [by apply elem_of_nil in Hin |].
    apply schema_token_indices_elem in Hp as [Hp _]. by exists p.1.
  - intros (delim & Hd & Hk). right.
    exists (delim, find_index_of_subset output (encode tok delim)).
    split; [by apply schema_token_indices_elem | done].
Qed.

(** ** The allow-list, case by case *)

Lemma forallb_keys (f : string -> bool) d :
  forallb f (PyDict.keys d) = true
  <-> forall key v, Some (key, v) ∈ d -> f key = true.
Proof.
  rewrite forallb_forall. split.
  - intros H key v Hin. apply H, list_elem_of_In, keys_elem. by exists v.
  - intros H key Hin. apply list_elem_of_In, keys_elem in Hin as [v Hv].
    by apply (H key v).
Qed.

Lemma forallb_keys_false (f : string -> bool) d :
  forallb f (PyDict.keys d) = false ->
  exists key v, Some (key, v) ∈ d /\ f key = false.
Proof.
  intros H. apply not_true_iff_false in H.
  destruct (existsb (fun key => negb (f key)) (PyDict.keys d)) eqn:Hex.
  - apply existsb_exists in Hex as (key & Hin & Hf).
    apply list_elem_of_In, keys_elem in Hin as [v Hv].
    exists key, v. split; [done |]. by destruct (f key).
  - destruct H. apply forallb_forall. intros key Hin.
    destruct (f key) eqn:Hf; [done |].
    assert (existsb (fun key => negb (f key)) (PyDict.keys d) = true);
      [| congruence].
    apply existsb_exists. exists key. by rewrite Hf.
Qed.

(** X2: with an allow-list of two or more names, the pruning of lines
    404-411 returns the record unchanged when all its fields are in the
    list, and raises [RuntimeError] in every other case: no field is
    ever dropped. *)
Theorem remove_fields_several first second more d :
  let allowed := first :: second :: more in
  remove_fields (Some allowed) d
  = if forallb (fun key => str_in key allowed) (PyDict.keys d)
    then Ok (RDict d) else Raise RuntimeError.
Proof.
  intros allowed.
  destruct (forallb _ (PyDict.keys d)) eqn:Hall.
  - apply remove_fields_nothing_to_prune.
    by apply (forallb_keys (fun key => str_in key allowed)).
  - apply forallb_keys_false in Hall as (key & v & Hin & Hout).
    by apply remove_fields_raises with (key := key) (v := v).
Qed.

(** X3: with an allow-list of one name, the pruning of lines 404-411
    raises [KeyError] when the record has no field of that name, returns
    the field's text (a string, not a dictionary) when it is the
    record's only field, and raises [AttributeError] when the record has
    any other field. *)
Theorem remove_fields_one only d :
  remove_fields (Some [only]) d
  = match PyDict.getitem d only with
    | None => Raise KeyError
    | Some text =>
        if forallb (fun key => String.eqb key only) (PyDict.keys d)
        then Ok (RStr text) else Raise AttributeError
    end.
Proof.
  destruct (PyDict.getitem d only) as [text|] eqn:Hget.
  - destruct (forallb _ (PyDict.keys d)) eqn:Hall.
    + unfold remove_fields. simpl length. rewrite Hget. simpl rbind.
      rewrite prune_keys_all_allowed; [done |].
      intros key v Hin. simpl.
      by rewrite (proj1 (forallb_keys (fun key => String.eqb key only) d)
                    Hall key v Hin).
    + apply forallb_keys_false in Hall as (key & v & Hin & Hne).
      apply String.eqb_neq in Hne.
      rewrite (remove_fields_single_raises only d key v Hin Hne).
      by rewrite Hget.
  - unfold remove_fields. simpl length. by rewrite Hget.
Qed.

(** ** Schema mode, end to end *)

Lemma seed_if_given_rng a w s :
  Gen.seed a = Some s -> s <> 0 ->
  Gen.rng (Gen.seed_if_given a w) = {| seeded_by := Some s; draws := 0 |}.
Proof.
  intros Hseed Hs. unfold Gen.seed_if_given. rewrite Hseed.
  by destruct (Z.eqb_spec s 0).
Qed.

(** X4: a call in schema mode with a seed other than 0 that raises while
    the records are built (no [schema_tokens] on the configuration, or
    an error of the allow-list pruning) leaves the global random state
    seeded, one sampling pass in: [reset_seed] is not reached. *)
Theorem schema_error_keeps_seed fuel tok mdl a w s e w' :
  Gen.seed a = Some s -> s <> 0 ->
  Gen.schema a = true ->
  Gen.prompt_fits tok mdl a = true ->
  Gen.generate fuel tok mdl a w = (Gen.Raised e, w') ->
  e <> IndexError ->
  Gen.rng w' = {| seeded_by := Some s; draws := 1 |}.
Proof.
  intros Hseed Hs Hschema Hfits Hrun He. unfold Gen.generate in Hrun.
  rewrite Hfits in Hrun. destruct fuel as [|fuel]; [discriminate Hrun |].
  simpl in Hrun. rewrite Hschema in Hrun. unfold Gen.schema_branch in Hrun.
  rewrite (seed_if_given_rng a w s Hseed Hs) in Hrun.
  destruct (schema_tokens_attr (config mdl)); [| by injection Hrun as _ <-].
  destruct (result_mapM _ _) as [gen_texts|]; [| by injection Hrun as _ <-].
  destruct (negb (Gen.return_as_list a)); [discriminate Hrun |].
  destruct (1 <? Gen.n a); [discriminate Hrun |].
  destruct gen_texts; [| discriminate Hrun].
  injection Hrun as <- _. done.
Qed.

Lemma schema_error_keeps_seed_witness :
  let mdl :=
    replay_model (demo_config (Some ["Q"; "A"])) [["Q:hello A:world"]] in
  let a := demo_args true true (Some 42) None in
  Gen.generate 1 char_tokenizer mdl a fresh_world
  = (Gen.Raised RuntimeError,
     {| Gen.rng := {| seeded_by := Some 42; draws := 1 |};
        Gen.model_calls := 1 |}).
Proof.
  intros mdl a.
  destruct (Gen.generate 1 char_tokenizer mdl a fresh_world)
    as [out w'] eqn:Hrun.
  assert (out = Gen.Raised RuntimeError) as ->
    by (vm_compute in Hrun; by injection Hrun as <- _).
  pose proof (schema_error_keeps_seed 1 char_tokenizer mdl a fresh_world 42
                RuntimeError w' eq_refl ltac:(lia) eq_refl eq_refl Hrun
                ltac:(discriminate)) as Hrng.
  vm_compute in Hrun. by injection Hrun as <-.
Defined.

(** X5: an object constructed without schema tokens ([None] or an empty
    list) on a configuration that holds none raises [AttributeError]
    when [generate] is called in schema mode, and only after a sampling
    pass of the model has run. *)
Theorem unconfigured_schema_raises fuel tok mdl schema_tokens schema_return
    a w :
  schema_tokens_attr (config mdl) = None ->
  truthy_list schema_tokens = false ->
  Gen.schema a = true ->
  Gen.prompt_fits tok (init_model mdl schema_tokens schema_return) a = true ->
  Gen.generate (S fuel) tok (init_model mdl schema_tokens schema_return) a w
  = (Gen.Raised AttributeError,
     {| Gen.rng := draw (Gen.rng (Gen.seed_if_given a w));
        Gen.model_calls := S (Gen.model_calls w) |}).
Proof.
  intros Hcfg Hnone Hschema Hfits. unfold Gen.generate. rewrite Hfits.
  simpl. rewrite Hschema. unfold Gen.schema_branch. simpl.
  rewrite Hnone, Hcfg. by rewrite seed_if_given_calls.
Qed.

Lemma unconfigured_schema_raises_witness :
  let mdl :=
    replay_model
      {| max_context := 1024; line_by_line := None;
         schema_tokens_attr := None; schema_return_attr := None |}
      [["Q:hello"]] in
  Gen.generate 1 char_tokenizer (init_model mdl (Some []) (Some ["Q"]))
    (demo_args true true None None) fresh_world
  = (Gen.Raised AttributeError,
     {| Gen.rng := {| seeded_by := None; draws := 1 |};
        Gen.model_calls := 1 |}).
Proof.
  intros mdl.
  exact (unconfigured_schema_raises 0 char_tokenizer mdl (Some [])
           (Some ["Q"]) (demo_args true true None None) fresh_world
           eq_refl eq_refl eq_refl eq_refl).
Defined.

(** X6: in schema mode without an allow-list, a call that returns a list
    gives one dictionary per generated sequence, in order, each the one
    built by the field loop; for [n <= 1] it gives the first of them,
    and raises [IndexError] when the model generated nothing. *)
Theorem schema_mode_returns_records fuel tok mdl a w schema_tokens :
  Gen.schema a = true ->
  Gen.return_as_list a = true ->
  Gen.prompt_fits tok mdl a = true ->
  schema_tokens_attr (config mdl) = Some schema_tokens ->
  truthy_list (schema_return_attr (config mdl)) = false ->
  let outputs :=
    model_generate mdl (Gen.make_request tok mdl a)
      (Gen.rng (Gen.seed_if_given a w)) in
  let gen_texts :=
    map (fun output =>
           RDict (schema_fields tok (Gen.normalize_key a) schema_tokens output))
      outputs in
  fst (Gen.generate (S fuel) tok mdl a w)
  = if 1 <? Gen.n a then Gen.Returned (Gen.VRecords gen_texts)
    else match gen_texts with
         | gen_text :: _ => Gen.Returned (Gen.VRecord gen_text)
         | [] => Gen.Raised IndexError
         end.
Proof.
  intros Hschema Hlist Hfits Htokens Hnone outputs gen_texts.
  unfold Gen.generate. rewrite Hfits. simpl. rewrite Hschema.
  unfold Gen.schema_branch. rewrite Htokens.
  rewrite schema_records_unpruned by done. fold outputs gen_texts.
  rewrite Hlist. simpl.
  destruct (1 <? Gen.n a); [done |]. by destruct gen_texts.
Qed.

Lemma schema_mode_returns_records_witness :
  let mdl :=
    replay_model (demo_config None) [["Q:hello A:world"; "A:only"]] in
  let a :=
    {| Gen.n := 2; Gen.prompt := ""; Gen.prepend_bos := None;
       Gen.min_length := None; Gen.max_length := 256;
       Gen.return_as_list := true; Gen.seed := None;
       Gen.pad_token_id := None; Gen.schema := true;
       Gen.normalize_key := true; Gen.use_cache := true;
       Gen.lstrip := true; Gen.nonempty_output := true;
       Gen.skip_special_tokens := true |} in
  fst (Gen.generate 1 char_tokenizer mdl a fresh_world)
  = Gen.Returned (Gen.VRecords
      [RDict [Some ("Z", ""); Some ("Q", "Q:hello"); Some ("A", "A:world")];
       RDict [Some ("Q", ""); Some ("Z", ""); Some ("A", "A:only")]]).
Proof.
  intros mdl a.
  refine (eq_trans
            (schema_mode_returns_records 0 char_tokenizer mdl a fresh_world
               ["Q:"; "A:"; "Z:"] eq_refl eq_refl eq_refl eq_refl eq_refl) _).
  vm_compute. reflexivity.
Defined.

(** ** Two delimiters at one position *)

Lemma pyslice_tied {A : Type} (l : list A) (s : Z) :
  0 <= s < Z.of_nat (length l) ->
  pyslice l s (Some (s - 1))
  = if s =? 0 then take (length l - 1) l else [].
Proof.
  intros Hs. unfold pyslice, clamp_index.
  destruct (Z.ltb_spec s 0) as [| _]; [lia |].
  destruct (Z.eqb_spec s 0) as [-> | Hne].
  - simpl. rewrite Z.min_l, Z.max_l by lia. rewrite drop_0. f_equal. lia.
  - destruct (Z.ltb_spec (s - 1) 0) as [| _]; [lia |].
    rewrite !Z.min_l by lia. by replace (s - 1 - s) with (-1) by lia.
Qed.

(** X7: when the next pair of the order was found at the same position
    (one encoding starts another), the field of the first pair is cut at
    [start - 1]: it is empty, except at position 0, where the end [-1]
    counts from the end of the output and the field is the whole output
    but its last token. *)
Theorem tied_position_field tok normalize_key schema_tokens output
    i delim other start :
  let sti := schema_token_indices tok schema_tokens output in
  sti !! i = Some (delim, start) ->
  sti !! S i = Some (other, start) ->
  start <> -1 ->
  (forall j later, (i < j)%nat -> sti !! j = Some later ->
     field_key normalize_key later.1 <> field_key normalize_key delim) ->
  PyDict.getitem (schema_fields tok normalize_key schema_tokens output)
    (field_key normalize_key delim)
  = Some (decode tok
            (if start =? 0 then take (length output - 1) output else [])
            true).
Proof.
  intros sti Hi Hnext Hfound Hkeys.
  rewrite (unique_key_field_value tok normalize_key schema_tokens output
             i delim start Hi Hfound Hkeys).
  unfold end_index. fold sti. rewrite Hnext. simpl.
  rewrite pyslice_tied; [done |].
  apply list_elem_of_lookup_2, schema_token_indices_elem in Hi as [_ Hpos].
  simpl in Hpos.
  destruct (find_index_of_subset_range output (encode tok delim)); lia.
Qed.

Lemma tied_position_field_witness :
  PyDict.getitem
    (schema_fields char_tokenizer false ["Q"; "Q:"] (char_encode "Q:hello"))
    "Q"
  = Some "Q:hell".
Proof.
  refine (eq_trans
            (tied_position_field char_tokenizer false ["Q"; "Q:"]
               (char_encode "Q:hello") 0 "Q" "Q:" 0 eq_refl eq_refl
               ltac:(discriminate) _) _).
  - intros [|[|j]] later Hlt Hj; [lia | | discriminate Hj].
    injection Hj as <-. discriminate.
  - reflexivity.
Defined.

(** ** Plain text mode: what is returned, and when nothing is *)

Lemma lstrip_spaces_head text c rest :
  lstrip_spaces text = String c rest -> is_space c = false.
Proof.
  induction text as [|c0 text IH]; simpl; [done |].
  destruct (is_space c0) eqn:Hc0; [done |].
  intros H. by injection H as <- _.
Qed.

Lemma lstrip_spaces_len text : len (lstrip_spaces text) <= len text.
Proof.
  unfold len. induction text as [|c text IH]; simpl; [done |].
  destruct (is_space c); simpl; lia.
Qed.

Lemma filter_none {A : Type} (f : A -> bool) (l : list A) :
  (forall x, In x l -> f x = false) -> List.filter f l = [].
Proof.
  induction l as [|x l IH]; intros H; simpl; [done |].
  rewrite (H x) by (by left). apply IH. intros y Hy. apply H. by right.
Qed.

(** A loop whose every batch is cleaned away runs out of any bound. *)
Lemma plain_loop_out_of_fuel tok mdl a req fuel : forall w,
  Gen.schema a = false ->
  (forall r, Gen.clean_texts tok a (model_generate mdl req r) = []) ->
  Gen.generate_loop fuel tok mdl a req w
  = (Gen.OutOfFuel,
     {| Gen.rng := Nat.iter fuel draw (Gen.rng w);
        Gen.model_calls := (fuel + Gen.model_calls w)%nat |}).
Proof.
  induction fuel as [|fuel IH]; intros w Hplain Hempty.
  - by destruct w.
  - simpl Gen.generate_loop. rewrite Hplain, Hempty, IH by done.
    f_equal. simpl Gen.rng. simpl Gen.model_calls.
    rewrite <- Nat.iter_succ_r. f_equal. lia.
Qed.

(** X8: in plain text mode with [nonempty_output] and a [min_length]
    that no decoded text of the model exceeds, [generate] never ends:
    every round of its loop samples again, and no bound on the rounds is
    enough. *)
Theorem plain_loop_never_ends fuel tok mdl a w m :
  Gen.schema a = false ->
  Gen.nonempty_output a = true ->
  Gen.min_length a = Some m ->
  Gen.prompt_fits tok mdl a = true ->
  (forall r output,
     In output (model_generate mdl (Gen.make_request tok mdl a) r) ->
     len (decode tok output (Gen.skip_special_tokens a)) <= m) ->
  Gen.generate fuel tok mdl a w
  = (Gen.OutOfFuel,
     {| Gen.rng := Nat.iter fuel draw (Gen.rng (Gen.seed_if_given a w));
        Gen.model_calls := (fuel + Gen.model_calls w)%nat |}).
Proof.
  intros Hplain Hnonempty Hmin Hfits Hshort. unfold Gen.generate.
  rewrite Hfits, plain_loop_out_of_fuel, seed_if_given_calls; [done.. |].
  intros r. rewrite clean_texts_filter by done. rewrite Hmin. simpl.
  apply filter_none. intros x Hx. apply in_map_iff in Hx as (output & <- & Ho).
  apply Z.ltb_ge. specialize (Hshort r output Ho).
  destruct (Gen.lstrip a); [| done].
  pose proof (lstrip_spaces_len
                (decode tok output (Gen.skip_special_tokens a))). lia.
Qed.

Lemma plain_loop_never_ends_witness :
  Gen.generate 50 char_tokenizer
    (replay_model (demo_config None) [["abc"]; ["hello"; "  hi"]])
    (demo_args false true None (Some 5)) fresh_world
  = (Gen.OutOfFuel,
     {| Gen.rng := {| seeded_by := None; draws := 50 |};
        Gen.model_calls := 50 |}).
Proof.
  refine (eq_trans
            (plain_loop_never_ends 50 char_tokenizer
               (replay_model (demo_config None) [["abc"]; ["hello"; "  hi"]])
               (demo_args false true None (Some 5)) fresh_world 5
               eq_refl eq_refl eq_refl eq_refl _) _).
  - intros [seeded [|[|[|k]]]] output; simpl;
      intros H; repeat (destruct H as [<- | H]; [vm_compute; discriminate |]);
      destruct H.
  - reflexivity.
Defined.

(** X9: in plain text mode with [nonempty_output] off, a call that
    returns does so after one sampling pass whenever the model generated
    anything, with one text per generated sequence, in order, the empty
    ones included. *)
Theorem plain_unfiltered fuel tok mdl a w :
  Gen.schema a = false ->
  Gen.nonempty_output a = false ->
  Gen.return_as_list a = true ->
  Gen.prompt_fits tok mdl a = true ->
  let outputs :=
    model_generate mdl (Gen.make_request tok mdl a)
      (Gen.rng (Gen.seed_if_given a w)) in
  outputs <> [] ->
  exists w',
    Gen.generate (S fuel) tok mdl a w
    = (Gen.Returned
         (Gen.VTexts
            (map (fun output =>
                    (if Gen.lstrip a then lstrip_spaces else id)
                      (decode tok output (Gen.skip_special_tokens a)))
               outputs)), w')
    /\ Gen.model_calls w' = S (Gen.model_calls w).
Proof.
  intros Hplain Hnonempty Hlist Hfits outputs Hsome.
  unfold Gen.generate. rewrite Hfits. simpl. rewrite Hplain.
  unfold Gen.clean_texts. rewrite Hnonempty. fold outputs.
  assert ((if Gen.lstrip a
           then map lstrip_spaces
                  (map (fun output =>
                          decode tok output (Gen.skip_special_tokens a))
                     outputs)
           else map (fun output =>
                       decode tok output (Gen.skip_special_tokens a)) outputs)
          = map (fun output =>
                   (if Gen.lstrip a then lstrip_spaces else id)
                     (decode tok output (Gen.skip_special_tokens a)))
              outputs) as ->
    by (destruct (Gen.lstrip a); [by rewrite List.map_map | done]).
  destruct outputs as [|output outputs']; [done |]. simpl.
  unfold Gen.plain_finish. rewrite Hlist. simpl.
  eexists. split; [done |].
  by rewrite reset_if_seeded_calls, seed_if_given_calls.
Qed.

Lemma plain_unfiltered_witness :
  let mdl := replay_model (demo_config None) [["  "; " ab"]] in
  let a :=
    {| Gen.n := 2; Gen.prompt := ""; Gen.prepend_bos := None;
       Gen.min_length := None; Gen.max_length := 256;
       Gen.return_as_list := true; Gen.seed := None;
       Gen.pad_token_id := None; Gen.schema := false;
       Gen.normalize_key := true; Gen.use_cache := true;
       Gen.lstrip := true; Gen.nonempty_output := false;
       Gen.skip_special_tokens := true |} in
  fst (Gen.generate 1 char_tokenizer mdl a fresh_world)
  = Gen.Returned (Gen.VTexts [""; "ab"]).
Proof.
  intros mdl a.
  destruct (plain_unfiltered 0 char_tokenizer mdl a fresh_world
              eq_refl eq_refl eq_refl eq_refl ltac:(discriminate))
    as (w' & Hrun & _).
  rewrite Hrun. reflexivity.
Defined.

Lemma clean_texts_stripped tok a outputs x c rest :
  Gen.lstrip a = true ->
  In x (Gen.clean_texts tok a outputs) ->
  x = String c rest -> is_space c = false.
Proof.
  intros Hlstrip Hx ->. unfold Gen.clean_texts in Hx. rewrite Hlstrip in Hx.
  assert (In (String c rest)
            (map lstrip_spaces
               (map (fun output =>
                       decode tok output (Gen.skip_special_tokens a))
                  outputs))) as Hin.
  { destruct (Gen.nonempty_output a); [| done].
    destruct (Gen.min_length a) as [m|];
      [destruct (negb (m =? 0)) |]; by apply filter_In in Hx as [Hx _]. }
  apply in_map_iff in Hin as (text & Htext & _).
  by apply lstrip_spaces_head in Htext.
Qed.

(** X10: with [lstrip], no text that [generate] returns in plain text
    mode starts with a whitespace character. *)
Theorem returned_texts_stripped fuel tok mdl a w gen_texts w' x c rest :
  Gen.schema a = false ->
  Gen.lstrip a = true ->
  Gen.generate fuel tok mdl a w = (Gen.Returned (Gen.VTexts gen_texts), w') ->
  In x gen_texts ->
  x = String c rest -> is_space c = false.
Proof.
  intros Hplain Hlstrip Hrun Hx Hhead. unfold Gen.generate in Hrun.
  destruct (Gen.prompt_fits tok mdl a); [| discriminate Hrun].
  destruct (plain_loop_ends tok mdl a (Gen.make_request tok mdl a) Hplain
              fuel _ _ _ Hrun ltac:(discriminate))
    as (k & first & others & _ & _ & Hbatch & Hout).
  unfold Gen.plain_finish in Hout.
  destruct (negb (Gen.return_as_list a));
    [destruct (1 <? Gen.n a); discriminate Hout |].
  injection Hout as Hout _. rewrite Hout, <- Hbatch in Hx.
  by eapply clean_texts_stripped.
Qed.

Lemma returned_texts_stripped_witness :
  let mdl := replay_model (demo_config None) [["  ab c"]] in
  let a := demo_args false true None None in
  let w' := {| Gen.rng := {| seeded_by := None; draws := 1 |};
               Gen.model_calls := 1 |} in
  Gen.generate 1 char_tokenizer mdl a fresh_world
  = (Gen.Returned (Gen.VTexts ["ab c"]), w')
  /\ is_space "a" = false.
Proof.
  intros mdl a w'. split; [reflexivity |].
  exact (returned_texts_stripped 1 char_tokenizer mdl a fresh_world ["ab c"]
           w' "ab c" "a" "b c" eq_refl eq_refl eq_refl
           (or_introl eq_refl) eq_refl).
Defined.

(** ** The prompt handed to the model *)

(** X11: for a prompt that passes the check, the request never asks for
    more than the model's context: [max_length] is capped by it, and the
    input is the encoded prompt, shorter than the context, or the BOS
    token followed by it, which can fill the context to the last token
    since the check is made before the BOS token is added. *)
Theorem prompt_within_context tok mdl a :
  Gen.prompt a <> "" ->
  Gen.prompt_fits tok mdl a = true ->
  let req := Gen.make_request tok mdl a in
  let ids := encode tok (Gen.prompt a) in
  req_max_length req <= max_context (config mdl)
  /\ (input_ids req = Some ids
      /\ Z.of_nat (length ids) < max_context (config mdl)
      \/ input_ids req = Some (bos_token_id tok :: ids)
         /\ Z.of_nat (length (bos_token_id tok :: ids))
            <= max_context (config mdl)).
Proof.
  intros Hprompt Hfits req ids. split; [simpl; lia |].
  unfold Gen.prompt_fits, truthy_str in Hfits.
  apply String.eqb_neq in Hprompt. rewrite Hprompt in Hfits. simpl in Hfits.
  apply Z.ltb_lt in Hfits. fold ids in Hfits.
  unfold req, Gen.make_request, Gen.make_input_ids, truthy_str. simpl.
  rewrite Hprompt. simpl. fold ids.
  destruct (Gen.prepend_bos a) as [[|]|];
    [right | left | destruct (line_by_line (config mdl)) as [[|]|];
                      [right | left | left]];
    (split; [done | simpl length; lia]).
Qed.

(** A prompt of four tokens for a context of five, with the BOS token in
    front: the model is handed five tokens. *)
Lemma prompt_within_context_witness :
  let mdl :=
    replay_model
      {| max_context := 5; line_by_line := Some true;
         schema_tokens_attr := None; schema_return_attr := None |}
      [["text"]] in
  let a :=
    {| Gen.n := 1; Gen.prompt := "abcd"; Gen.prepend_bos := None;
       Gen.min_length := None; Gen.max_length := 256;
       Gen.return_as_list := true; Gen.seed := None;
       Gen.pad_token_id := None; Gen.schema := false;
       Gen.normalize_key := true; Gen.use_cache := true;
       Gen.lstrip := true; Gen.nonempty_output := true;
       Gen.skip_special_tokens := true |} in
  req_max_length (Gen.make_request char_tokenizer mdl a) = 5
  /\ input_ids (Gen.make_request char_tokenizer mdl a)
     = Some [0; 97; 98; 99; 100].
Proof.
  intros mdl a.
  destruct (prompt_within_context char_tokenizer mdl a
              ltac:(discriminate) eq_refl) as [_ [[Hids _] | [Hids _]]].
  - discriminate Hids.
  - split; [reflexivity | exact Hids].
Defined.

(** ** generate_one *)

Lemma result_mapM_head {A B : Type} (f : A -> result B) l y ys :
  result_mapM f l = Ok (y :: ys) -> exists x xs, l = x :: xs /\ f x = Ok y.
Proof.
  destruct l as [|x xs]; simpl; [done |].
  destruct (f x) as [y0|] eqn:Hfx; simpl; [| done].
  destruct (result_mapM f xs); simpl; [| done].
  intros H. injection H as <- _. by exists x, xs.
Qed.

(** The loop over the keys leaves the binding of the variable alone. *)
Lemma prune_keys_rebound todo : forall pos di_used allowed d rebound st,
  prune_keys todo pos di_used allowed d rebound = Ok st -> st.2 = rebound.
Proof.
  induction todo as [|todo IH]; intros pos di_used allowed d rebound st; simpl.
  - destruct (PyDict.used d =? di_used)%nat; [| done].
    intros H. by injection H as <-.
  - destruct (d !! pos) as [[[key v]|]|]; [| by apply IH..].
    destruct (negb (PyDict.used d =? di_used)%nat); [done |].
    destruct (negb (str_in key allowed)); [| by apply IH].
    destruct rebound; [done |]. by apply IH.
Qed.

(** A record is a string only under an allow-list of one name, and then
    it is the text of the field of that name. *)
Lemma remove_fields_str schema_return d s :
  remove_fields schema_return d = Ok (RStr s) ->
  exists only,
    schema_return = Some [only] /\ PyDict.getitem d only = Some s.
Proof.
  unfold remove_fields.
  destruct schema_return as [[|first [|second more]]|]; try done.
  - simpl length. simpl Nat.eqb. cbv iota.
    destruct (PyDict.getitem d first) as [text|] eqn:Hget; simpl rbind;
      [| done].
    destruct (prune_keys _ _ _ _ _ (Some text)) as [st|] eqn:Hprune;
      simpl; [| done].
    apply prune_keys_rebound in Hprune. rewrite Hprune.
    intros [= ->]. by exists first.
  - simpl length. simpl rbind.
    destruct (prune_keys _ _ _ _ _ None) as [st|] eqn:Hprune; simpl; [| done].
    apply prune_keys_rebound in Hprune. by rewrite Hprune.
Qed.

(** X12: in plain text mode with [nonempty_output], what [generate_one]
    returns is a text, and one longer than [min_length] (longer than 0
    without a minimum): never the empty string, unless a negative
    [min_length] was asked for. *)
Theorem generate_one_text fuel tok mdl kwargs w r w' :
  Gen.schema kwargs = false ->
  Gen.nonempty_output kwargs = true ->
  generate_one fuel tok mdl kwargs w = (OneReturned r, w') ->
  exists text,
    r = RStr text /\ default 0 (Gen.min_length kwargs) < len text.
Proof.
  intros Hplain Hnonempty Hone. unfold generate_one in Hone.
  set (a := call_args kwargs 1 true (Gen.seed kwargs)) in *.
  destruct (Gen.generate fuel tok mdl a w) as [out w1] eqn:Hrun.
  destruct out as [v | | |]; try discriminate Hone.
  unfold Gen.generate in Hrun.
  destruct (Gen.prompt_fits tok mdl a); [| discriminate Hrun].
  destruct (plain_loop_batch fuel tok mdl a (Gen.make_request tok mdl a)
              (Gen.seed_if_given a w) _ _ Hplain Hnonempty Hrun
              ltac:(discriminate))
    as (k & _ & _ & Hbatch & _ & Hout & _).
  cbv zeta in Hbatch, Hout.
  set (b := List.filter _ _) in Hbatch, Hout.
  destruct b as [|text others] eqn:Hb; [done |].
  change (Gen.return_as_list a) with true in Hout. cbv iota in Hout.
  injection Hout as ->. simpl in Hone. injection Hone as Hr _.
  clear Hrun. subst r.
  exists text. split; [done |].
  assert (In text b) as Hin by (rewrite Hb; by left).
  apply filter_In in Hin as [_ Hlong].
  apply Z.ltb_lt in Hlong.
  by change (Gen.min_length a) with (Gen.min_length kwargs) in Hlong.
Qed.

Lemma generate_one_text_witness :
  let mdl := replay_model (demo_config None) [[" "]; ["  hello"]] in
  generate_one 3 char_tokenizer mdl (demo_args false false None None)
    fresh_world
  = (OneReturned (RStr "hello"),
     {| Gen.rng := {| seeded_by := None; draws := 2 |};
        Gen.model_calls := 2 |})
  /\ 0 < len "hello".
Proof.
  intros mdl. split; [reflexivity |].
  destruct (generate_one_text 3 char_tokenizer mdl
              (demo_args false false None None) fresh_world (RStr "hello")
              {| Gen.rng := {| seeded_by := None; draws := 2 |};
                 Gen.model_calls := 2 |} eq_refl eq_refl eq_refl)
    as (text & Hr & Hlen).
  injection Hr as <-. exact Hlen.
Defined.

(** X13: in schema mode [generate_one] never returns a record.
    [generate(n=1)] hands back the record itself, not a list: without an
    allow-list the record is a dictionary, and indexing it with [0]
    raises [KeyError] whenever the model has generated a sequence.  What
    [generate_one] returns, it returns under an allow-list of exactly
    one name, and it is the first character of the text that the record
    of the first generated sequence holds for the field of that name. *)
Theorem generate_one_schema fuel tok mdl kwargs w :
  Gen.schema kwargs = true ->
  let a := call_args kwargs 1 true (Gen.seed kwargs) in
  let outputs :=
    model_generate mdl (Gen.make_request tok mdl a)
      (Gen.rng (Gen.seed_if_given a w)) in
  (forall r w',
     generate_one fuel tok mdl kwargs w = (OneReturned r, w') ->
     exists only schema_tokens output c rest,
       schema_return_attr (config mdl) = Some [only]
       /\ schema_tokens_attr (config mdl) = Some schema_tokens
       /\ head outputs = Some output
       /\ PyDict.getitem
            (schema_fields tok (Gen.normalize_key kwargs) schema_tokens output)
            only
          = Some (String c rest)
       /\ r = RStr (String c EmptyString))
  /\ (forall rounds schema_tokens,
        Gen.prompt_fits tok mdl a = true ->
        schema_tokens_attr (config mdl) = Some schema_tokens ->
        truthy_list (schema_return_attr (config mdl)) = false ->
        outputs <> [] ->
        (generate_one (S rounds) tok mdl kwargs w).1 = OneRaised KeyError).
Proof.
  intros Hschema a outputs. split.
  - intros r w' Hone. unfold generate_one in Hone. fold a in Hone.
    destruct (Gen.generate fuel tok mdl a w) as [out w1] eqn:Hrun.
    destruct out as [v | | |]; try discriminate Hone.
    unfold Gen.generate in Hrun.
    destruct (Gen.prompt_fits tok mdl a); [| discriminate Hrun].
    destruct fuel as [|fuel]; [discriminate Hrun |].
    simpl in Hrun. rewrite Hschema in Hrun. unfold Gen.schema_branch in Hrun.
    destruct (schema_tokens_attr (config mdl)) as [schema_tokens|];
      [| discriminate Hrun].
    fold a outputs in Hrun.
    destruct (result_mapM _ outputs) as [gen_texts|] eqn:Hrecords;
      [| discriminate Hrun].
    simpl in Hrun. destruct gen_texts as [|gen_text gen_texts];
      [discriminate Hrun |].
    injection Hrun as <- _.
    apply result_mapM_head in Hrecords as (output & others & Hout & Hrecord).
    destruct gen_text as [d | s]; [discriminate Hone |].
    apply remove_fields_str in Hrecord as (only & Honly & Hget).
    destruct s as [|c s]; [discriminate Hone |].
    simpl in Hone. injection Hone as <- _.
    exists only, schema_tokens, output, c, s.
    repeat split; [done | | done]. by rewrite Hout.
  - intros rounds schema_tokens Hfits Htokens Hnone Hsome.
    unfold generate_one, Gen.generate. fold a. rewrite Hfits.
    simpl Gen.generate_loop. change (Gen.schema a) with (Gen.schema kwargs).
    rewrite Hschema. unfold Gen.schema_branch. rewrite Htokens.
    rewrite schema_records_unpruned by done. fold a outputs.
    by destruct outputs.
Qed.

(** With the allow-list ["A"] and the generated text "A:world", the one
    field of the record holds "A:world" and [generate_one] returns
    "A". *)
Lemma generate_one_schema_witness :
  let mdl :=
    replay_model
      {| max_context := 1024; line_by_line := None;
         schema_tokens_attr := Some ["A:"];
         schema_return_attr := Some ["A"] |}
      [["A:world"]] in
  generate_one 1 char_tokenizer mdl (demo_args true false None None)
    fresh_world
  = (OneReturned (RStr "A"),
     {| Gen.rng := {| seeded_by := None; draws := 1 |};
        Gen.model_calls := 1 |})
  /\ PyDict.getitem
       (schema_fields char_tokenizer true ["A:"] (char_encode "A:world")) "A"
     = Some "A:world".
Proof.
  intros mdl. split; [reflexivity |].
  destruct (proj1 (generate_one_schema 1 char_tokenizer mdl
                     (demo_args true false None None) fresh_world eq_refl)
              (RStr "A")
              {| Gen.rng := {| seeded_by := None; draws := 1 |};
                 Gen.model_calls := 1 |} eq_refl)
    as (only & schema_tokens & output & c & rest & Honly & Htokens & Hout
        & Hget & Hr).
  injection Honly as <-. injection Htokens as <-. injection Hout as <-.
  refine (eq_trans Hget _). vm_compute in Hget.
  injection Hget as <- <-. reflexivity.
Defined.

(** ** generate_to_file *)






Lemma shift_eq c r m k :
  (k = c + m)%nat ->
  {| Gen.rng := r; Gen.model_calls := k |}
  = shift c {| Gen.rng := r; Gen.model_calls := m |}.
Proof. intros ->. done. Qed.

Lemma reset_if_seeded_shift a c w :
  Gen.reset_if_seeded a (shift c w) = shift c (Gen.reset_if_seeded a w).
Proof. unfold Gen.reset_if_seeded. by destruct (truthy_int (Gen.seed a)). Qed.

Lemma seed_if_given_shift a c w :
  Gen.seed_if_given a (shift c w) = shift c (Gen.seed_if_given a w).
Proof.
  unfold Gen.seed_if_given. destruct (Gen.seed a) as [s|]; [| done].
  by destruct (negb (s =? 0)).
Qed.

(** The counter of sampling passes has no bearing on what the loop
    does. *)
Lemma generate_loop_shift tok mdl a req c fuel : forall w,
  Gen.generate_loop fuel tok mdl a req (shift c w)
  = ((Gen.generate_loop fuel tok mdl a req w).1,
     shift c (Gen.generate_loop fuel tok mdl a req w).2).
Proof.
  induction fuel as [|fuel IH]; intros w; [done |].
  simpl Gen.generate_loop.
  rewrite (shift_eq c (draw (Gen.rng w)) (S (Gen.model_calls w))) by lia.
  set (w1 := {| Gen.rng := draw (Gen.rng w);
                Gen.model_calls := S (Gen.model_calls w) |}).
  destruct (Gen.schema a).
  - unfold Gen.schema_branch.
    destruct (schema_tokens_attr (config mdl)); [| done].
    destruct (result_mapM _ _) as [gen_texts|]; [| done].
    rewrite reset_if_seeded_shift.
    destruct (negb (Gen.return_as_list a)); [done |].
    destruct (1 <? Gen.n a); [done |]. by destruct gen_texts.
  - destruct (Gen.clean_texts _ _ _) as [|first rest]; [apply IH |].
    unfold Gen.plain_finish. rewrite reset_if_seeded_shift.
    destruct (negb (Gen.return_as_list a)); [| done].
    by destruct (1 <? Gen.n a).
Qed.

Lemma generate_shift fuel tok mdl a c w :
  Gen.generate fuel tok mdl a (shift c w)
  = ((Gen.generate fuel tok mdl a w).1,
     shift c (Gen.generate fuel tok mdl a w).2).
Proof.
  unfold Gen.generate. destruct (Gen.prompt_fits tok mdl a); [| done].
  by rewrite seed_if_given_shift, generate_loop_shift.
Qed.

Lemma write_batches_shift fuel tok mdl a c rounds : forall w written,
  write_batches rounds fuel tok mdl a (shift c w) written
  = ((write_batches rounds fuel tok mdl a w written).1.1,
     shift c (write_batches rounds fuel tok mdl a w written).1.2,
     (write_batches rounds fuel tok mdl a w written).2).
Proof.
  induction rounds as [|rounds IH]; intros w written; [done |].
  simpl. rewrite generate_shift.
  destruct (Gen.generate fuel tok mdl a w) as [[v | v | e |] w1]; simpl;
    [apply IH | done..].
Qed.

(** X15: with a seed other than 0 given, what [generate_to_file] does
    and writes does not depend on the random state it is called in, and
    a run that completes leaves a fresh random state.  (A seed drawn for
    the file name comes from that random state: runs without a seed and
    a path are not covered.) *)
Theorem file_reproducible fuel tok mdl n batch_size destination_path
    randint kwargs s w1 w2 :
  s <> 0 ->
  let run :=
    generate_to_file fuel tok mdl n batch_size destination_path (Some s)
      randint kwargs in
  (run w1).1.1 = (run w2).1.1
  /\ (run w1).2 = (run w2).2
  /\ ((run w1).1.1 = FileDone ->
      Gen.rng (run w1).1.2 = {| seeded_by := None; draws := 0 |}).
Proof.
  intros Hs run. unfold run, generate_to_file.
  assert (forall drawn, file_seed destination_path (Some s) drawn = Some s)
    as Hseed by (intros drawn; by destruct destination_path).
  rewrite !Hseed.
  destruct (batch_size =? 0); [done |].
  destruct (negb (n mod batch_size =? 0)); [done |].
  destruct (Z.eqb_spec s 0) as [| _]; [done |]. simpl negb. cbv iota.
  set (base := {| Gen.rng := {| seeded_by := Some s; draws := 0 |};
                  Gen.model_calls := 0 |}).
  assert (forall w, with_rng w (set_seed s (Gen.rng w))
                    = shift (Gen.model_calls w) base) as Hbase
    by (intros w; unfold with_rng, shift; simpl; f_equal; lia).
  assert (truthy_int (Some s) = true) as ->
    by (simpl; by destruct (Z.eqb_spec s 0)).
  rewrite !Hbase, !write_batches_shift.
  destruct (write_batches _ fuel tok mdl _ base []) as [[out w'] items].
  simpl. by destruct out.
Qed.

(** Seeded with 42, the run writes the same texts from a fresh random
    state and from one that has been drawn from. *)
Lemma file_reproducible_witness :
  let mdl := replay_model (demo_config None) [["one"]; ["two"]] in
  let run :=
    generate_to_file 2 char_tokenizer mdl 2 1 None (Some 42)
      (fun r => 10000000 + Z.of_nat (draws r))
      (demo_args false false None None) in
  let used := {| Gen.rng := {| seeded_by := Some 7; draws := 5 |};
                 Gen.model_calls := 5 |} in
  (run fresh_world).2 = map ItemText ["one"; "two"]
  /\ (run fresh_world).2 = (run used).2.
Proof.
  intros mdl run used. split; [reflexivity |].
  exact (proj1 (proj2
    (file_reproducible 2 char_tokenizer mdl 2 1 None
       (fun r => 10000000 + Z.of_nat (draws r))
       (demo_args false false None None) 42 fresh_world used
       ltac:(lia)))).
Defined.

(** X16: in schema mode [generate_to_file] with [batch_size = 1] does not
    write the record: [generate] returns the dictionary itself instead
    of a list, and the loop over it writes its keys, one per entry of
    the file: the field keys of the configured delimiters. *)
Theorem file_schema_single_writes_keys fuel tok mdl destination_path seed
    randint kwargs w schema_tokens output outputs :
  Gen.schema kwargs = true ->
  schema_tokens_attr (config mdl) = Some schema_tokens ->
  truthy_list (schema_return_attr (config mdl)) = false ->
  let a := call_args kwargs 1 true None in
  Gen.prompt_fits tok mdl a = true ->
  (forall r, model_generate mdl (Gen.make_request tok mdl a) r
             = output :: outputs) ->
  (generate_to_file (S fuel) tok mdl 1 1 destination_path seed randint
     kwargs w).2
  = map ItemText
      (PyDict.keys
         (schema_fields tok (Gen.normalize_key kwargs) schema_tokens output)).
Proof.
  intros Hschema Htokens Hnone a Hfits Hmodel.
  unfold generate_to_file. simpl Z.eqb. cbv iota. simpl negb. cbv iota.
  change (Z.to_nat (1 / 1)) with 1%nat. fold a.
  unfold write_batches, Gen.generate. rewrite Hfits.
  simpl Gen.generate_loop. change (Gen.schema a) with (Gen.schema kwargs).
  rewrite Hschema. unfold Gen.schema_branch. rewrite Htokens, Hmodel.
  rewrite schema_records_unpruned by done. simpl.
  by rewrite app_nil_r || done.
Qed.

Lemma file_schema_single_writes_keys_witness :
  (generate_to_file 1 char_tokenizer
     (replay_model (demo_config None) []) 1 1 (Some "out.txt") None
     (fun _ => 12345678) (demo_args true false None None) fresh_world).2
  = [ItemText "Q"; ItemText "A"; ItemText "Z"].
Proof.
  refine (eq_trans
            (file_schema_single_writes_keys 0 char_tokenizer
               (replay_model (demo_config None) []) (Some "out.txt") None
               (fun _ => 12345678) (demo_args true false None None)
               fresh_world
               ["Q:"; "A:"; "Z:"] [] [] eq_refl eq_refl eq_refl eq_refl _) _).
  - intros [seeded [|k]]; reflexivity.
  - reflexivity.
Defined.

(** ** The run configuration of train *)

(** Looks a key up in a configuration built by conditional updates. *)
Ltac lookup_params :=
  repeat match goal with
         | |- context [if ?b then _ else _] => destruct b
         end;
  repeat first
    [ rewrite lookup_insert_eq
    | rewrite lookup_insert_ne by done
    | rewrite lookup_empty ];
  try done.

(** X17: whatever [fp16_opt_level] is asked for, the trainer is
    configured with the AMP level "O1" and the native AMP backend: lines
    753-754 overwrite what the [fp16] branch stored. *)
Theorem amp_level_is_fixed e a :
  Train.train_params e a !! "amp_level" = Some (PStr "O1")
  /\ Train.train_params e a !! "amp_backend" = Some (PStr "native").
Proof.
  unfold Train.train_params. split.
  - rewrite lookup_insert_ne by done. by rewrite lookup_insert_eq.
  - by rewrite lookup_insert_eq.
Qed.

Lemma resolved_n_gpu_cpu e a :
  Train.is_gpu_used e a = false -> Train.resolved_n_gpu e a = 0.
Proof.
  intros H. unfold Train.resolved_n_gpu. rewrite H. simpl.
  by rewrite andb_false_r.
Qed.

(** X18: without CUDA, or with [n_gpu = 0], training falls back to the
    CPU whatever else is asked for: the trainer gets no GPU, no
    DeepSpeed plugin (and [fp16] is not forced by it), no cudnn
    benchmark and no distributed backend. *)
Theorem cpu_fallback e a :
  Train.is_gpu_used e a = false ->
  Train.train_params e a !! "gpus" = Some (PInt 0)
  /\ Train.train_params e a !! "plugins" = Some PNone
  /\ Train.resolved_fp16 e a = Train.fp16 a
  /\ Train.train_params e a !! "benchmark" = None
  /\ Train.train_params e a !! "distributed_backend" = None.
Proof.
  intros Hcpu.
  assert (Train.resolved_fp16 e a = Train.fp16 a) as Hfp
    by (unfold Train.resolved_fp16; by rewrite Hcpu).
  unfold Train.train_params, Train.deepspeed_plugin.
  rewrite (resolved_n_gpu_cpu e a Hcpu), Hcpu. simpl andb. cbv iota.
  assert ((if 0 <? Train.tpu_cores a then 0 else 0) = 0) as ->
    by (by destruct (0 <? Train.tpu_cores a)).
  change (1 <? 0) with false. cbv iota.
  repeat split; [| | done | |]; lookup_params.
Qed.

Lemma cpu_fallback_witness :
  let e := {| Train.cuda_is_available := false;
              Train.platform_system := "Linux" |} in
  let a := {| Train.fp16 := false; Train.fp16_opt_level := "O2";
              Train.n_gpu := 4; Train.tpu_cores := 0;
              Train.max_grad_norm := 0.5%float;
              Train.gradient_accumulation_steps := 1;
              Train.num_steps := 5000; Train.loggers := [];
              Train.benchmark := true;
              Train.progress_bar_refresh_rate := 20;
              Train.use_deepspeed := true |} in
  Train.train_params e a !! "gpus" = Some (PInt 0)
  /\ Train.train_params e a !! "precision" = None.
Proof.
  intros e a. split; [| vm_compute; reflexivity].
  exact (proj1 (cpu_fallback e a eq_refl)).
Defined.

(** X19: the trainer is asked for the distributed backend "ddp" exactly
    when more than one GPU is left after the resolution of [n_gpu] and
    no TPU core is asked for; so never on Windows, and never for the
    default [n_gpu = -1] (all GPUs). *)
Theorem ddp_only_for_several_gpus e a :
  Train.train_params e a !! "distributed_backend"
  = (if (1 <? Train.resolved_n_gpu e a) && negb (0 <? Train.tpu_cores a)
     then Some (PStr "ddp") else None)
  /\ (Train.platform_system e = "Windows" ->
      Train.train_params e a !! "distributed_backend" = None)
  /\ (Train.n_gpu a = -1 ->
      Train.train_params e a !! "distributed_backend" = None).
Proof.
  assert (Train.train_params e a !! "distributed_backend"
          = (if (1 <? Train.resolved_n_gpu e a)
                && negb (0 <? Train.tpu_cores a)
             then Some (PStr "ddp") else None)) as Hddp.
  { unfold Train.train_params.
    destruct (0 <? Train.tpu_cores a); simpl negb.
    - rewrite andb_false_r. change (1 <? 0) with false. cbv iota.
      lookup_params.
    - rewrite andb_true_r. destruct (1 <? Train.resolved_n_gpu e a);
        lookup_params. }
  split; [done |]. rewrite Hddp. split.
  - intros Hwin. unfold Train.resolved_n_gpu. rewrite Hwin. simpl String.eqb.
    destruct (Train.is_gpu_used e a); simpl; [| done].
    destruct (Z.eqb_spec (Train.n_gpu a) 1) as [Hone |]; simpl; [| done].
    by rewrite Hone.
  - intros Hall. unfold Train.resolved_n_gpu. rewrite Hall.
    by destruct (String.eqb _ _), (Train.is_gpu_used e a).
Qed.

Lemma ddp_only_for_several_gpus_witness :
  let e := {| Train.cuda_is_available := true;
              Train.platform_system := "Windows" |} in
  let a := {| Train.fp16 := false; Train.fp16_opt_level := "O1";
              Train.n_gpu := 4; Train.tpu_cores := 0;
              Train.max_grad_norm := 0.5%float;
              Train.gradient_accumulation_steps := 1;
              Train.num_steps := 5000; Train.loggers := [];
              Train.benchmark := true;
              Train.progress_bar_refresh_rate := 20;
              Train.use_deepspeed := false |} in
  Train.train_params e a !! "gpus" = Some (PInt 1)
  /\ Train.train_params e a !! "distributed_backend" = None.
Proof.
  intros e a. split; [vm_compute; reflexivity |].
  exact (proj1 (proj2 (ddp_only_for_several_gpus e a)) eq_refl).
Defined.

(** X20: the check of the layers to freeze fails exactly when freezing
    is on (asked for, or forced by the 1558M model) and a freeze count
    other than 0 reaches the model's number of layers; a count given
    without freezing is not checked. *)
Theorem freeze_check_fails_iff freeze_layers openai_tf_gpt2 num_layers_freeze
    n_layer :
  train_freeze_layers freeze_layers openai_tf_gpt2 num_layers_freeze n_layer
  = Raise AssertionError
  <-> (freeze_layers = true \/ openai_tf_gpt2 = Some "1558M")
      /\ exists k, num_layers_freeze = Some k /\ k <> 0 /\ n_layer <= k.
Proof.
  unfold train_freeze_layers. split.
  - destruct freeze_layers; simpl.
    + destruct num_layers_freeze as [k|]; [| done].
      destruct (Z.eqb_spec k 0); [done |].
      destruct (Z.ltb_spec k n_layer); [done |]. intros _.
      split; [by left | by exists k].
    + destruct openai_tf_gpt2 as [size|]; [| done].
      destruct (String.eqb_spec size "1558M") as [-> |]; [| done].
      destruct num_layers_freeze as [k|]; [| done].
      destruct (Z.eqb_spec k 0); [done |].
      destruct (Z.ltb_spec k n_layer); [done |]. intros _.
      split; [by right | by exists k].
  - intros [Hon (k & -> & Hk & Hlayers)].
    assert (freeze_layers
            || match openai_tf_gpt2 with
               | Some size => String.eqb size "1558M"
               | None => false
               end = true) as ->.
    { destruct Hon as [-> | ->]; [done |]. by rewrite orb_true_r. }
    destruct (Z.eqb_spec k 0); [done |].
    by destruct (Z.ltb_spec k n_layer); [lia |].
Qed.

(** ** cross_train: lists and totals *)

Lemma result_mapM_length {A B : Type} (f : A -> result B) l : forall l',
  result_mapM f l = Ok l' -> length l' = length l.
Proof.
  induction l as [|x l IH]; intros l'; simpl.
  - by intros [= <-].
  - destruct (f x) as [y|]; simpl; [| done].
    destruct (result_mapM f l) as [ys|]; simpl; [| done].
    intros [= <-]. simpl. f_equal. by apply IH.
Qed.

Lemma result_mapM_total {A B : Type} (f : A -> result B) l :
  (forall x, exists y, f x = Ok y) -> exists l', result_mapM f l = Ok l'.
Proof.
  intros Hf. induction l as [|x l [ys IH]]; simpl; [by eexists |].
  destruct (Hf x) as [y ->]. rewrite IH. by eexists.
Qed.

(** A budget that a double can hold is divided without error. *)
Lemma int_true_div_in_range s x :
  Z.abs s < 2 ^ 1023 -> exists steps, int_true_div s x = Ok steps.
Proof.
  intros Hs. unfold int_true_div.
  destruct (Z.leb_spec (2 ^ (1024 + Z.of_nat x))
              (Z.abs (round_to_53_bits s))) as [Hbig |]; [exfalso | by eexists].
  pose proof (proj1 (round_to_53_bits_bounds s)) as Hle.
  assert (2 ^ 1024 <= 2 ^ (1024 + Z.of_nat x))
    by (apply Z.pow_le_mono_r; lia).
  assert (2 ^ 1024 = 2 * 2 ^ 1023) by (by rewrite <- Z.pow_succ_r).
  lia.
Qed.

(** A budget from [2 ** 1024] on is beyond every double: the first
    division fails. *)
Lemma int_true_div_overflow s :
  2 ^ 1024 <= Z.abs s -> int_true_div s 0 = Raise OverflowError.
Proof.
  intros Hs. unfold int_true_div.
  pose proof (proj2 (round_to_53_bits_bounds s) 1024 ltac:(lia) Hs) as Hge.
  change (1024 + Z.of_nat 0) with 1024.
  by destruct (Z.leb_spec (2 ^ 1024) (Z.abs (round_to_53_bits s))); [| lia].
Qed.

(** X21: cross-training over at most 1024 datasets, with a step budget
    that a double can hold (below [2 ^ 1023] in absolute value) or with
    a list of steps, fails before its first training run only on its
    assertion, and exactly when a learning rate list or a step list is
    given whose length is not the number of datasets.  A scalar budget from [2 ^ 1024] on fails with
    [OverflowError] when the first number of steps is computed, before
    the assertion.  When cross-training does not fail, every dataset
    gets one training run, and lists that are given are used as they
    are. *)
Theorem cross_train_lengths learning_rate num_steps datasets :
  (datasets <= 1024)%nat ->
  ((forall s, num_steps = Scalar s -> Z.abs s < 2 ^ 1023) ->
   (cross_train learning_rate num_steps datasets = Raise AssertionError
    <-> (exists l, learning_rate = PerDataset l /\ length l <> datasets)
        \/ (exists l, num_steps = PerDataset l /\ length l <> datasets))
   /\ (forall e, cross_train learning_rate num_steps datasets = Raise e ->
         e = AssertionError))
  /\ (forall s, num_steps = Scalar s -> 2 ^ 1024 <= Z.abs s ->
        (0 < datasets)%nat ->
        cross_train learning_rate num_steps datasets = Raise OverflowError)
  /\ (forall plan, cross_train learning_rate num_steps datasets = Ok plan ->
        length plan = datasets
        /\ (forall l, learning_rate = PerDataset l -> plan.*1 = l)
        /\ (forall l, num_steps = PerDataset l -> plan.*2 = l)).
Proof.
  intros Hdatasets. unfold cross_train.
  assert (exists rates,
            cross_train_learning_rates learning_rate datasets = Ok rates
            /\ (forall l, learning_rate = PerDataset l -> rates = l)
            /\ (length rates <> datasets
                <-> exists l, learning_rate = PerDataset l
                              /\ length l <> datasets))
    as (rates & -> & Hrates & Hrlen).
  { destruct learning_rate as [r | l]; simpl.
    - destruct (Nat.leb_spec datasets 1024) as [_ |]; [| lia].
      eexists. split; [done |]. split; [done |].
      rewrite length_map, length_seq. split; [done |].
      by intros (l & ? & _).
    - exists l. split; [done |]. split; [by intros ? [= ->] |]. split.
      + intros H. by exists l.
      + by intros (l' & [= <-] & H). }
  assert (forall steps,
            cross_train_num_steps num_steps datasets = Ok steps ->
            (forall l, num_steps = PerDataset l -> steps = l)
            /\ (length steps <> datasets
                <-> exists l, num_steps = PerDataset l /\ length l <> datasets))
    as Hsteps.
  { intros steps Hok. destruct num_steps as [s | l]; simpl in Hok.
    - split; [done |]. apply result_mapM_length in Hok.
      rewrite length_seq in Hok. split; [done |]. by intros (l & ? & _).
    - injection Hok as <-. split; [by intros ? [= ->] |]. split.
      + intros H. by exists l.
      + by intros (l' & [= <-] & H). }
  assert ((forall s, num_steps = Scalar s -> Z.abs s < 2 ^ 1023) ->
          exists steps, cross_train_num_steps num_steps datasets = Ok steps)
    as Hrange.
  { intros Hs. destruct num_steps as [s | l]; [| by eexists].
    apply result_mapM_total. intros x. by apply int_true_div_in_range, Hs. }
  assert (forall s, num_steps = Scalar s -> 2 ^ 1024 <= Z.abs s ->
            (0 < datasets)%nat ->
            cross_train_num_steps num_steps datasets = Raise OverflowError)
    as Hoverflow.
  { intros s -> Hs Hsome. destruct datasets as [|k]; [lia |].
    unfold cross_train_num_steps. change (seq 0 (S k)) with (0%nat :: seq 1 k).
    unfold result_mapM. by rewrite int_true_div_overflow. }
  simpl rbind.
  destruct (cross_train_num_steps num_steps datasets) as [steps | e0] eqn:Hst;
    simpl rbind.
  - destruct (Hsteps steps eq_refl) as [Hgiven Hslen].
    split; [intros _ | split];
      [| intros s Hs Hbig Hsome;
         pose proof (Hoverflow s Hs Hbig Hsome); congruence |].
    + destruct (Nat.eqb_spec datasets (length rates)) as [Hr | Hr];
        [destruct (Nat.eqb_spec (length rates) (length steps)) as [Hs | Hs] |];
        cbv [andb]; (split; [| by intros e [= <-] || done]).
      * split; [done |].
        intros [H | H]; [apply Hrlen in H | apply Hslen in H]; lia.
      * split; [intros _ | done]. right. apply Hslen. lia.
      * split; [intros _ | done]. left. apply Hrlen. lia.
    + destruct (Nat.eqb_spec datasets (length rates)) as [Hr | Hr];
        [destruct (Nat.eqb_spec (length rates) (length steps)) as [Hs | Hs] |];
        cbv [andb]; try done.
      intros plan [= <-]. split; [| split].
      * rewrite length_zip_with. lia.
      * intros l Hl. rewrite (Hrates l Hl) in *. apply fst_zip. lia.
      * intros l Hl. rewrite (Hgiven l Hl) in *. apply snd_zip. lia.
  - split; [| split; [| done]].
    + intros Hs. destruct (Hrange Hs) as [steps Hok]. congruence.
    + intros s Hs Hbig Hsome.
      pose proof (Hoverflow s Hs Hbig Hsome). congruence.
Qed.

(** Three datasets and two numbers of steps: the assertion fails. *)
Lemma cross_train_lengths_witness :
  cross_train (Scalar 1%float) (PerDataset [100; 50]) 3
  = Raise AssertionError.
Proof.
  apply (proj1 (cross_train_lengths (Scalar 1%float) (PerDataset [100; 50]) 3
                  ltac:(lia))).
  - intros s Hs. discriminate Hs.
  - right. exists [100; 50]. split; [reflexivity | simpl; lia].
Defined.

Lemma sum_app (l1 l2 : list Z) :
  foldr Z.add 0 (l1 ++ l2) = foldr Z.add 0 l1 + foldr Z.add 0 l2.
Proof. induction l1 as [|x l1 IH]; simpl; lia. Qed.

Lemma halving_sum (s : Z) (k : nat) :
  0 <= s ->
  foldr Z.add 0 (map (fun x => s / 2 ^ Z.of_nat x) (seq 0 (S k)))
  + s / 2 ^ Z.of_nat k <= 2 * s.
Proof.
  intros Hs. induction k as [|k IH].
  - simpl. rewrite Z.div_1_r. lia.
  - rewrite seq_S, map_app, sum_app.
    change (foldr Z.add 0 (map (fun x => s / 2 ^ Z.of_nat x) [(0 + S k)%nat]))
      with (s / 2 ^ Z.of_nat (S k) + 0).
    assert (s / 2 ^ Z.of_nat (S k) = s / 2 ^ Z.of_nat k / 2) as ->.
    { assert (0 < 2 ^ Z.of_nat k) by (apply Z.pow_pos_nonneg; lia).
      rewrite Nat2Z.inj_succ, Z.pow_succ_r by lia.
      by rewrite (Z.mul_comm 2), Z.div_div by lia. }
    pose proof (Z.mul_div_le (s / 2 ^ Z.of_nat k) 2 ltac:(lia)). lia.
Qed.

(** X22: with a scalar step budget that is not negative and below
    [2 ^ 53] (where the quotients are exact doubles), every training run
    of cross-training gets half the steps of the run before it, rounded
    down; a run gets no step at all once [2 ^ i] exceeds the budget; and
    all runs together take at most twice the budget. *)
Theorem cross_train_steps_halve num_steps datasets :
  0 <= num_steps < 2 ^ 53 ->
  exists steps,
    cross_train_num_steps (Scalar num_steps) datasets = Ok steps
    /\ length steps = datasets
    /\ (forall i step next,
          steps !! i = Some step -> steps !! S i = Some next ->
          next = step / 2)
    /\ (forall i step,
          steps !! i = Some step -> num_steps < 2 ^ Z.of_nat i -> step = 0)
    /\ foldr Z.add 0 steps <= 2 * num_steps.
Proof.
  intros Hs. rewrite cross_train_num_steps_exact by lia.
  eexists. split; [done |].
  set (steps := map _ _).
  assert (steps = map (fun x => num_steps / 2 ^ Z.of_nat x) (seq 0 datasets))
    as Hsteps.
  { unfold steps. apply map_ext. intros x.
    apply Z.quot_div_nonneg; [lia |]. apply Z.pow_pos_nonneg; lia. }
  assert (forall i step, steps !! i = Some step ->
            step = num_steps / 2 ^ Z.of_nat i) as Hnth.
  { intros i step Hi. rewrite Hsteps, list_lookup_fmap in Hi.
    destruct (seq 0 datasets !! i) as [x|] eqn:Hx; [| done].
    apply lookup_seq in Hx as [-> _]. simpl in Hi. by injection Hi as <-. }
  split; [| split; [| split]].
  - by rewrite Hsteps, length_map, length_seq.
  - intros i step next Hi Hnext.
    rewrite (Hnth _ _ Hi), (Hnth _ _ Hnext).
    assert (0 < 2 ^ Z.of_nat i) by (apply Z.pow_pos_nonneg; lia).
    rewrite Nat2Z.inj_succ, Z.pow_succ_r by lia.
    by rewrite (Z.mul_comm 2), Z.div_div by lia.
  - intros i step Hi Hsmall. rewrite (Hnth _ _ Hi).
    apply Z.div_small. lia.
  - rewrite Hsteps.
    destruct datasets as [|k]; [simpl; lia |].
    pose proof (halving_sum num_steps k ltac:(lia)).
    assert (0 <= num_steps / 2 ^ Z.of_nat k)
      by (apply Z.div_pos; [lia | apply Z.pow_pos_nonneg; lia]).
    lia.
Qed.

Lemma cross_train_steps_halve_witness :
  cross_train_num_steps (Scalar 5) 5 = Ok [5; 2; 1; 0; 0]
  /\ foldr Z.add 0 [5; 2; 1; 0; 0] <= 2 * 5.
Proof.
  split; [reflexivity |].
  destruct (cross_train_steps_halve 5 5 ltac:(lia))
    as (steps & Hsteps & _ & _ & _ & Hsum).
  injection Hsteps as <-. exact Hsum.
Defined.

(** ** More on the devices and on the modes of generate *)

(** X23: on Windows the trainer never gets more than one GPU: [gpus] is
    1 when a GPU is in use and no TPU core is asked for, and 0
    otherwise, whatever [n_gpu] is.  Asking for TPU cores sets [gpus] to
    0 on every platform. *)
Theorem windows_single_gpu e a :
  (Train.platform_system e = "Windows" ->
   Train.train_params e a !! "gpus"
   = Some (PInt (if Train.is_gpu_used e a && negb (0 <? Train.tpu_cores a)
                 then 1 else 0)))
  /\ (0 < Train.tpu_cores a ->
      Train.train_params e a !! "gpus" = Some (PInt 0)
      /\ Train.train_params e a !! "tpu_cores"
         = Some (PInt (Train.tpu_cores a))).
Proof.
  split.
  - intros Hwin.
    assert (Train.resolved_n_gpu e a
            = if Train.is_gpu_used e a then 1 else 0) as Hn.
    { unfold Train.resolved_n_gpu. rewrite Hwin. simpl String.eqb.
      destruct (Train.is_gpu_used e a); simpl; [| done].
      destruct (Z.eqb_spec (Train.n_gpu a) 1) as [Hone |]; simpl; [| done].
      by rewrite Hone. }
    unfold Train.train_params. rewrite Hn.
    destruct (0 <? Train.tpu_cores a), (Train.is_gpu_used e a); simpl;
      lookup_params.
  - intros Htpu. apply Z.ltb_lt in Htpu.
    unfold Train.train_params. rewrite Htpu. split; lookup_params.
Qed.

Lemma windows_single_gpu_witness :
  let e := {| Train.cuda_is_available := true;
              Train.platform_system := "Windows" |} in
  let a := {| Train.fp16 := false; Train.fp16_opt_level := "O1";
              Train.n_gpu := -1; Train.tpu_cores := 0;
              Train.max_grad_norm := 0.5%float;
              Train.gradient_accumulation_steps := 1;
              Train.num_steps := 5000; Train.loggers := [];
              Train.benchmark := true;
              Train.progress_bar_refresh_rate := 20;
              Train.use_deepspeed := false |} in
  Train.train_params e a !! "gpus" = Some (PInt 1).
Proof.
  intros e a. exact (proj1 (windows_single_gpu e a) eq_refl).
Defined.

Lemma generate_loop_mode fuel tok mdl a req : forall w out w',
  Gen.generate_loop fuel tok mdl a req w = (out, w') ->
  forall v,
    out <> (if Gen.return_as_list a then Gen.Printed v else Gen.Returned v).
Proof.
  induction fuel as [|fuel IH]; intros w out w' Hrun v.
  - injection Hrun as <- _. by destruct (Gen.return_as_list a).
  - simpl in Hrun. destruct (Gen.schema a).
    + unfold Gen.schema_branch in Hrun.
      destruct (schema_tokens_attr (config mdl));
        [| injection Hrun as <- _; by destruct (Gen.return_as_list a)].
      destruct (result_mapM _ _) as [gen_texts|];
        [| injection Hrun as <- _; by destruct (Gen.return_as_list a)].
      destruct (Gen.return_as_list a); simpl in Hrun.
      * destruct (1 <? Gen.n a); [by injection Hrun as <- _ |].
        destruct gen_texts; by injection Hrun as <- _.
      * by injection Hrun as <- _.
    + destruct (Gen.clean_texts _ _ _) as [|first rest]; [by eapply IH |].
      unfold Gen.plain_finish in Hrun.
      destruct (Gen.return_as_list a); simpl in Hrun.
      * by injection Hrun as <- _.
      * destruct (1 <? Gen.n a); by injection Hrun as <- _.
Qed.

(** X24: [generate] keeps to the mode it is called in: with
    [return_as_list] it never prints, and without it never returns a
    value. *)
Theorem generate_keeps_mode fuel tok mdl a w out w' v :
  Gen.generate fuel tok mdl a w = (out, w') ->
  out <> (if Gen.return_as_list a then Gen.Printed v else Gen.Returned v).
Proof.
  unfold Gen.generate. destruct (Gen.prompt_fits tok mdl a).
  - intros Hrun. by eapply generate_loop_mode.
  - intros H. injection H as <- _. by destruct (Gen.return_as_list a).
Qed.

Lemma generate_keeps_mode_witness :
  fst (Gen.generate 1 char_tokenizer
         (replay_model (demo_config None) [["some text"]])
         (demo_args false false None None) fresh_world)
  = Gen.Printed (Gen.VTexts ["some text"])
  /\ Gen.Printed (Gen.VTexts ["some text"])
     <> Gen.Returned (Gen.VTexts ["some text"]).
Proof.
  split; [reflexivity |].
  exact (generate_keeps_mode 1 char_tokenizer
           (replay_model (demo_config None) [["some text"]])
           (demo_args false false None None) fresh_world
           (Gen.Printed (Gen.VTexts ["some text"]))
           {| Gen.rng := {| seeded_by := None; draws := 1 |};
              Gen.model_calls := 1 |}
           (Gen.VTexts ["some text"]) eq_refl).
Defined.

(** X25: with a seed other than 0, what [generate] returns, prints or
    raises does not depend on the random state it is called in, and a
    call that returns or prints leaves a fresh random state: two calls
    with the same seed and arguments give the same result. *)
Theorem generate_reproducible fuel tok mdl a s w1 w2 :
  Gen.seed a = Some s ->
  s <> 0 ->
  (Gen.generate fuel tok mdl a w1).1 = (Gen.generate fuel tok mdl a w2).1
  /\ ((exists v, (Gen.generate fuel tok mdl a w1).1 = Gen.Returned v
                 \/ (Gen.generate fuel tok mdl a w1).1 = Gen.Printed v) ->
      Gen.rng (Gen.generate fuel tok mdl a w1).2
      = {| seeded_by := None; draws := 0 |}).
Proof.
  intros Hseed Hs. split.
  - unfold Gen.generate. destruct (Gen.prompt_fits tok mdl a); [| done].
    set (base := {| Gen.rng := {| seeded_by := Some s; draws := 0 |};
                    Gen.model_calls := 0 |}).
    assert (forall w, Gen.seed_if_given a w = shift (Gen.model_calls w) base)
      as Hbase.
    { intros w. unfold Gen.seed_if_given. rewrite Hseed.
      destruct (Z.eqb_spec s 0); [done |]. unfold shift. simpl.
      f_equal. lia. }
    by rewrite !Hbase, !generate_loop_shift.
  - intros Hends.
    destruct (Gen.generate fuel tok mdl a w1) as [out w'] eqn:Hrun.
    by destruct (nonzero_seed_applied_and_reset fuel tok mdl a w1 s out w'
                   Hseed Hs Hrun Hends).
Qed.

Lemma generate_reproducible_witness :
  let mdl := replay_model (demo_config None) [["first"]; ["second"]] in
  let a := demo_args false true (Some 42) None in
  let used := {| Gen.rng := {| seeded_by := None; draws := 1 |};
                 Gen.model_calls := 1 |} in
  (Gen.generate 1 char_tokenizer mdl a fresh_world).1
  = Gen.Returned (Gen.VTexts ["first"])
  /\ (Gen.generate 1 char_tokenizer mdl a fresh_world).1
     = (Gen.generate 1 char_tokenizer mdl a used).1.
Proof.
  intros mdl a used. split; [reflexivity |].
  exact (proj1 (generate_reproducible 1 char_tokenizer mdl a 42 fresh_world
                  used eq_refl ltac:(lia))).
Defined.
